(** * sam_bam_verify: header normalisation and record streaming

    A shallow embedding of [src/sam_bam_verify/sam_bam_verify.c], the
    modENCODE SAM/BAM checker that strips the ["chr"] prefix from reference
    names, regenerates a missing header text, copies every alignment record
    to a BAM file and reports the number of mapped reads.

    Conventions of the embedding.

    - A C string is the [string] of its characters before the terminator.
      A [char *] into a string is an offset ([nat]); [NULL] is [None].
    - [int32_t], [uint32_t] and [long long] values are integers of [Z]; every
      store into such a field writes out its wrap-around.
    - The program is a function from the event trace so far to the extended
      trace and an [outcome]: a value, a process exit status, or a crash
      (undefined behaviour such as [strdup(NULL)] or an access past the end
      of an array).
    - [samopen], [samread], [bam_write1], [samclose], [samfaipath] and
      [bam_header_dup] belong to samtools, not to this repository; the file
      system they act on is a parameter of [main].
    - Heap allocation succeeds: [strdup] does not return [NULL] and
      [asprintf] does not return a negative value, so the [exit(1)] of
      lines 71-72 is not among the runs.
    - The [strcpy] of line 80 copies inside one buffer.  C leaves the call
      undefined when the bytes read and the bytes written overlap;
      [strcpy_overlaps] says when they do and [rewrite_overlaps] whether the
      loop meets such a call.  The text the embedding carries on with is the
      one a copy from the left leaves, the order the loop is written for. *)

From Stdlib Require Import ZArith String Ascii DecimalString.
From stdpp Require Import base tactics option list.
From Equations Require Import Equations.

Set Default Proof Using "Type".

Local Open Scope Z_scope.

(** ** C strings *)

Module CString.

Definition TAB : ascii := "009"%char.
Definition NL : ascii := "010"%char.

(** A line of output: the text and its newline. *)
Definition line (s : string) : string := (s ++ String NL EmptyString)%string.

Definition strlen (s : string) : nat := String.length s.

(** [s + n] for a [char *s]: the string that starts [n] characters in.
    Callers only move inside the string. *)
Fixpoint ptr_add (s : string) (n : nat) {struct n} : string :=
  match n, s with
  | O, _ => s
  | S n', String _ s' => ptr_add s' n'
  | S _, EmptyString => EmptyString
  end.

(** The first [n] characters of [s]: what lies before the pointer [s + n]. *)
Fixpoint before (s : string) (n : nat) {struct n} : string :=
  match n, s with
  | O, _ => EmptyString
  | S n', String c s' => String c (before s' n')
  | S _, EmptyString => EmptyString
  end.

(** [strstr(haystack, needle)]: offset of the first occurrence, or [NULL]. *)
Fixpoint strstr (haystack needle : string) : option nat :=
  if String.prefix needle haystack then Some O
  else match haystack with
       | EmptyString => None
       | String _ rest => S <$> strstr rest needle
       end.

Definition strdup (s : string) : string := s.

Definition strcat (dst src : string) : string := (dst ++ src)%string.

(** [strcpy(buf + dst, buf + src)] with [dst <= src] inside one buffer, when
    the bytes from [src] to the terminator move down to [dst] one at a time
    from the left.  This is the value C gives the call when
    [strcpy_overlaps] is false. *)
Definition strcpy_down (buf : string) (dst src : nat) : string :=
  (before buf dst ++ ptr_add buf src)%string.

(** [strcpy(buf + dst, buf + src)] reads the [strlen(buf + src) + 1] bytes
    that start at [buf + src], terminator included, and writes as many from
    [buf + dst] on.  The two ranges overlap when each starts before the
    other ends; the behaviour of the call is then undefined. *)
Definition strcpy_overlaps (buf : string) (dst src : nat) : bool :=
  let count := (strlen (ptr_add buf src) + 1)%nat in
  ((dst <? src + count) && (src <? dst + count))%nat.

Definition char_code (c : ascii) : Z := Z.of_nat (nat_of_ascii c).

(** [strcmp]: difference of the first pair of characters that differ; the
    terminator counts as character 0. *)
Fixpoint strcmp (s1 s2 : string) : Z :=
  match s1, s2 with
  | EmptyString, EmptyString => 0
  | EmptyString, String c2 _ => 0 - char_code c2
  | String c1 _, EmptyString => char_code c1
  | String c1 r1, String c2 r2 =>
      if Ascii.eqb c1 c2 then strcmp r1 r2 else char_code c1 - char_code c2
  end.

(** [tolower] in the C locale. *)
Definition tolower (c : ascii) : ascii :=
  let n := nat_of_ascii c in
  if ((65 <=? n) && (n <=? 90))%nat then ascii_of_nat (n + 32) else c.

(** [strcasecmp]: [strcmp] after [tolower]. *)
Fixpoint strcasecmp (s1 s2 : string) : Z :=
  match s1, s2 with
  | EmptyString, EmptyString => 0
  | EmptyString, String c2 _ => 0 - char_code (tolower c2)
  | String c1 _, EmptyString => char_code (tolower c1)
  | String c1 r1, String c2 r2 =>
      if Ascii.eqb (tolower c1) (tolower c2) then strcasecmp r1 r2
      else char_code (tolower c1) - char_code (tolower c2)
  end.

(** Case-insensitive [String.prefix]. *)
Fixpoint caseprefix (p s : string) : bool :=
  match p, s with
  | EmptyString, _ => true
  | String _ _, EmptyString => false
  | String a p', String b s' => Ascii.eqb (tolower a) (tolower b) && caseprefix p' s'
  end.

(** [strcasestr(haystack, needle)]: offset of the first occurrence up to
    case, or [NULL]. *)
Fixpoint strcasestr (haystack needle : string) : option nat :=
  if caseprefix needle haystack then Some O
  else match haystack with
       | EmptyString => None
       | String _ rest => S <$> strcasestr rest needle
       end.

(** The decimal numeral of an integer, as [printf] writes it. *)
Definition decimal (z : Z) : string := NilZero.string_of_int (Z.to_int z).

End CString.
Import CString.

(** ** Machine integers *)

Definition uint32 (z : Z) : Z := z mod 2 ^ 32.

(** The value an [int] or [long long] holds after a two's-complement store. *)
Definition sint (bits : Z) (z : Z) : Z :=
  (z + 2 ^ (bits - 1)) mod 2 ^ bits - 2 ^ (bits - 1).

Definition sint32 : Z -> Z := sint 32.
Definition sint64 : Z -> Z := sint 64.

(** [printf("%d", x)] for [uint32_t x]: the 32 bits are read as an [int]. *)
Definition printf_d (x : Z) : string := decimal (sint32 x).

(** [printf("%lld", x)] for [long long x]. *)
Definition printf_lld (x : Z) : string := decimal x.

(** ** Outcomes, events and the program monad *)

Inductive outcome (A : Type) : Type :=
| Done (a : A)          (* the code ran on and produced [a] *)
| Exited (status : Z)   (* [return status] from [main], or [exit(status)] *)
| Crashed.              (* undefined behaviour *)
Arguments Done {A} a.
Arguments Exited {A} status.
Arguments Crashed {A}.

(** ** Data: headers, records and containers

    [bam_header_t], [bam1_t] and [samfile_t] are declared in samtools'
    [bam.h] and [sam.h]; the fields the program touches are kept, with the
    types they have there: [int32_t n_targets], [char **target_name],
    [uint32_t *target_len], [uint32_t l_text], [char *text]. *)

Record bam_header_t : Type := {
  n_targets : Z;
  target_name : list string;
  target_len : list Z;
  l_text : Z;
  text : option string
}.

Definition set_target (i : nat) (name : string) (len : Z) (h : bam_header_t) : bam_header_t :=
  {| n_targets := n_targets h;
     target_name := <[i := name]> (target_name h);
     target_len := <[i := len]> (target_len h);
     l_text := l_text h;
     text := text h |}.

Definition set_text (t : option string) (h : bam_header_t) : bam_header_t :=
  {| n_targets := n_targets h;
     target_name := target_name h;
     target_len := target_len h;
     l_text := l_text h;
     text := t |}.

Definition set_l_text (l : Z) (h : bam_header_t) : bam_header_t :=
  {| n_targets := n_targets h;
     target_name := target_name h;
     target_len := target_len h;
     l_text := l;
     text := text h |}.

(** An alignment: [core.flag] and the rest of the record, which the program
    never looks at. *)
Record bam1_t : Type := {
  flag : Z;
  payload : list Z
}.

Definition BAM_FUNMAP : Z := 4.

(** An input container as [samopen] returns it: its header and the records
    [samread] has still to deliver. *)
Record samfile_t : Type := {
  header : bam_header_t;
  pending : list bam1_t
}.

Inductive handle : Type := Infp | Outfp.

Inductive event : Type :=
| Stdout (s : string)
| Stderr (s : string)
| OpenedInput (path mode : string) (aux : option string)
| OpenedOutput (path : string) (h : bam_header_t)
| RecordRead (b : bam1_t)
| RecordWritten (b : bam1_t)
| Closed (fp : handle).

Definition trace : Type := list event.

Definition prog (A : Type) : Type := trace -> trace * outcome A.

Definition ret {A} (a : A) : prog A := fun tr => (tr, Done a).

Definition bind {A B} (m : prog A) (k : A -> prog B) : prog B :=
  fun tr =>
    match m tr with
    | (tr', Done a) => k a tr'
    | (tr', Exited status) => (tr', Exited status)
    | (tr', Crashed) => (tr', Crashed)
    end.

Definition emit (e : event) : prog unit := fun tr => (tr ++ [e], Done tt).
Definition exit_with {A} (status : Z) : prog A := fun tr => (tr, Exited status).
Definition crash {A} : prog A := fun tr => (tr, Crashed).

Declare Scope prog_scope.
Delimit Scope prog_scope with prog.
Notation "x <- m ;; k" := (bind m (fun x => k))
  (at level 100, m at next level, right associativity) : prog_scope.
Notation "m ;; k" := (bind m (fun _ => k))
  (at level 100, right associativity) : prog_scope.
Local Open Scope prog_scope.

Definition fprintf_stderr (s : string) : prog unit := emit (Stderr s).
Definition printf (s : string) : prog unit := emit (Stdout s).

(** [a[i]] for an array of [length a] elements. *)
Definition load {A} (a : list A) (i : nat) : prog A :=
  match a !! i with
  | Some x => ret x
  | None => crash
  end.

(** [for (i = from; i < from + count; i++) body], threading the state. *)
Fixpoint for_loop {A} (from : nat) (count : nat) (body : nat -> A -> prog A) (a : A) : prog A :=
  match count with
  | O => ret a
  | S count' => a' <- body from a ;; for_loop (S from) count' body a'
  end.

(** ** The reference table normaliser (lines 48-60) *)

Definition strip_target (debug_level : Z) (i : nat) (h : bam_header_t) : prog bam_header_t :=
  target <- load (target_name h) i ;;
  if decide (strstr target "chr" = Some O) then
    if (3 <? strlen target)%nat then
      len <- load (target_len h) i ;;
      if 3 <? len then
        let new_text := strdup (ptr_add target 3) in
        (if decide (Z.land debug_level 1 <> 0)
         then fprintf_stderr (line ("Removing 'chr' prefix. " ++ target ++ " becomes "
                                      ++ ptr_add target 3))
         else ret tt) ;;
        ret (set_target i new_text (uint32 (Z.of_nat (strlen new_text))) h)
      else ret h
    else ret h
  else ret h.

Definition normalize_table (debug_level : Z) (h : bam_header_t) : prog bam_header_t :=
  for_loop 0 (Z.to_nat (n_targets h)) (strip_target debug_level) h.

(** ** The header text synthesiser (lines 64-77) *)

(** [asprintf(&buf1, "@SQ\tSN:%s\tLN:%d\n", name, len)], when the allocation
    succeeds. *)
Definition asprintf_sq (name : string) (len : Z) : string :=
  ("@SQ" ++ String TAB ("SN:" ++ name ++ String TAB ("LN:" ++ line (printf_d len))))%string.

(** One round of the loop of lines 70-76.  Both calls of [asprintf] return
    the formatted text; the [exit(1)] behind a negative return value
    belongs to runs in which allocation fails. *)
Definition regenerate_line (i : nat) (h : bam_header_t) : prog bam_header_t :=
  name <- load (target_name h) i ;;
  len <- load (target_len h) i ;;
  let buf1 := asprintf_sq name len in
  match text h with
  | None => crash
  | Some t =>
      let buf2 := (t ++ buf1)%string in
      ret (set_text (Some (strdup buf2)) h)
  end.

(** [!header->text || strlen(header->text) == 0]. *)
Definition text_missing (h : bam_header_t) : bool :=
  match text h with
  | None => true
  | Some t => (strlen t =? 0)%nat
  end.

Definition synthesize_text (h : bam_header_t) : prog bam_header_t :=
  if text_missing h && (0 <? n_targets h) then
    let h := set_text (Some EmptyString) h in
    fprintf_stderr (line "No header found, regenerating.") ;;
    for_loop 0 (Z.to_nat (n_targets h)) regenerate_line h
  else ret h.

(** ** The header text rewriter (lines 78-86) *)

Section StringLengths.

Local Open Scope nat_scope.

Lemma length_append (s1 s2 : string) :
  String.length (s1 ++ s2) = String.length s1 + String.length s2.
Proof. induction s1 as [|c s1 IH]; simpl; [reflexivity | now rewrite IH]. Qed.

Lemma length_before (s : string) (n : nat) :
  String.length (before s n) = Nat.min n (String.length s).
Proof.
  revert s; induction n as [|n IH]; intros [|c s]; simpl; try reflexivity.
  now rewrite IH.
Qed.

Lemma length_ptr_add (s : string) (n : nat) :
  String.length (ptr_add s n) = String.length s - n.
Proof.
  revert s; induction n as [|n IH]; intros [|c s]; simpl; try reflexivity.
  apply IH.
Qed.

Lemma prefix_length (p s : string) :
  String.prefix p s = true -> String.length p <= String.length s.
Proof.
  revert s; induction p as [|a p IH]; intros [|b s]; simpl; try lia; try done.
  destruct (ascii_dec a b); [|done].
  intros H; apply IH in H; lia.
Qed.

Lemma strstr_bound (haystack needle : string) (p : nat) :
  strstr haystack needle = Some p ->
  p + String.length needle <= String.length haystack.
Proof.
  revert p; induction haystack as [|c rest IH]; intros p; cbn [strstr].
  - destruct (String.prefix needle EmptyString) eqn:E; [|done].
    intros [= <-]. apply prefix_length in E. simpl in *; lia.
  - destruct (String.prefix needle (String c rest)) eqn:E.
    + intros [= <-]. apply prefix_length in E. simpl in *; lia.
    + destruct (strstr rest needle) as [q|] eqn:Eq; simpl; [|done].
      intros [= <-]. specialize (IH q eq_refl). lia.
Qed.

Lemma strcpy_down_length (buf : string) (dst src : nat) :
  dst <= src -> src <= String.length buf ->
  String.length (strcpy_down buf dst src) + (src - dst) = String.length buf.
Proof.
  intros Hd Hs. unfold strcpy_down.
  rewrite length_append, length_before, length_ptr_add. lia.
Qed.

End StringLengths.

(** A value together with the equation that names it. *)
Definition inspect {A : Type} (a : A) : {b : A | a = b} := exist _ a eq_refl.

(** [while ((replace_here = strstr(new_text, "SN:chr")))
      strcpy(replace_here+3, replace_here+6);]
    Each round shortens the buffer by three characters.  The buffer a round
    leaves is the one [strcpy_down] gives. *)
Equations? rewrite_loop (new_text : string) : string by wf (strlen new_text) lt :=
  rewrite_loop new_text with inspect (strstr new_text "SN:chr") := {
    | exist _ (Some replace_here) found =>
        rewrite_loop (strcpy_down new_text (replace_here + 3) (replace_here + 6))
    | exist _ None _ => new_text }.
Proof.
  apply strstr_bound in found. simpl in found. unfold strlen.
  pose proof (strcpy_down_length new_text (replace_here + 3) (replace_here + 6)).
  lia.
Qed.

(** Whether a round of that loop calls [strcpy] on ranges that overlap. *)
Equations? rewrite_overlaps (new_text : string) : bool by wf (strlen new_text) lt :=
  rewrite_overlaps new_text with inspect (strstr new_text "SN:chr") := {
    | exist _ (Some replace_here) found =>
        strcpy_overlaps new_text (replace_here + 3) (replace_here + 6)
        || rewrite_overlaps (strcpy_down new_text (replace_here + 3) (replace_here + 6))
    | exist _ None _ => false }.
Proof.
  apply strstr_bound in found. simpl in found. unfold strlen.
  pose proof (strcpy_down_length new_text (replace_here + 3) (replace_here + 6)).
  lia.
Qed.

Definition rewrite_text (h : bam_header_t) : prog bam_header_t :=
  match text h with
  | None => crash
  | Some t =>
      let new_text := rewrite_loop (strdup t) in
      let h := set_text (Some (strdup new_text)) h in
      ret (set_l_text (uint32 (Z.of_nat (strlen new_text))) h)
  end.

(** The pre-streaming phase of [main]: lines 48-90, run on the copy of the
    input's header. *)
Definition prepare_header (debug_level : Z) (h : bam_header_t) : prog bam_header_t :=
  h <- normalize_table debug_level h ;;
  h <- synthesize_text h ;;
  h <- rewrite_text h ;;
  (if decide (Z.land debug_level 1 <> 0)
   then fprintf_stderr (line "New header:" ++ default EmptyString (text h))
   else ret tt) ;;
  ret h.

(** ** The record stream (lines 98-102)

    [samread] hands over the pending records one by one and then returns a
    negative value; each record read is written before the next is read. *)
Fixpoint stream_records (pending : list bam1_t) (mapped_read_count : Z) : prog Z :=
  match pending with
  | [] => ret mapped_read_count
  | alignment :: rest =>
      emit (RecordRead alignment) ;;
      let mapped_read_count :=
        if Z.land (flag alignment) BAM_FUNMAP =? 0
        then sint64 (mapped_read_count + 1)
        else mapped_read_count in
      emit (RecordWritten alignment) ;;
      stream_records rest mapped_read_count
  end.

(** ** [main] *)

Definition show_usage : prog unit :=
  fprintf_stderr (line "Usage:") ;;
  fprintf_stderr (line "  ./sam_bam_verify <input.sam|input.bam> <output.bam> [-v]") ;;
  fprintf_stderr (line "    -v   Verbose output (to stderr).").

(** Lines 31-32: the mode string and the reference hint [samopen] gets. *)
Definition select_in_mode (path : string) (aux : option string) : string * option string :=
  let in_mode := "r"%string in
  match strcasestr path ".bam" with
  | Some extension =>
      if strcasecmp (ptr_add path extension) ".bam" =? 0
      then (strcat in_mode "b", None)
      else (in_mode, aux)
  | None => (in_mode, aux)
  end.

Definition bam_header_dup (h : bam_header_t) : bam_header_t := h.

(** The world outside, as the samtools calls see it: [samfaipath] on a
    reference name, [samopen] for reading (path, mode, hint) and whether
    [samopen] for writing (path, header) succeeds. *)
Record samtools : Type := {
  samfaipath : string -> option string;
  samopen_read : string -> string -> option string -> option samfile_t;
  samopen_write : string -> bam_header_t -> bool
}.

Section Program.

Variable fs : samtools.

(** Lines 10-38: the arguments and the input container. *)
Definition open_input (argv : list string) : prog (samfile_t * Z) :=
  let argc := Z.of_nat (length argv) in
  if argc <? 3 then
    show_usage ;; exit_with 1
  else
    in_path <- load argv 1 ;;
    out_path <- load argv 2 ;;
    if strcmp in_path out_path =? 0 then
      fprintf_stderr (line "Can't read and write the same file.") ;;
      show_usage ;; exit_with 1
    else
      aux <- (if 4 <=? argc then
                hint <- load argv 3 ;;
                if strcmp hint "-v" =? 0 then ret None
                else ret (samfaipath fs (strdup hint))
              else ret None) ;;
      last <- load argv (Z.to_nat (argc - 1)) ;;
      let debug_level := if strcmp last "-v" =? 0 then 1 else 0 in
      let '(in_mode, aux) := select_in_mode in_path aux in
      match samopen_read fs in_path in_mode aux with
      | None =>
          fprintf_stderr (line ("Failed to open input file " ++ in_path)) ;;
          exit_with 1
      | Some infp =>
          emit (OpenedInput in_path in_mode aux) ;;
          ret (infp, debug_level)
      end.

Definition main (argv : list string) : prog unit :=
  opened <- open_input argv ;;
  let '(infp, debug_level) := opened in
  let hdr := bam_header_dup (header infp) in
  let mapped_read_count := 0 in
  hdr <- prepare_header debug_level hdr ;;
  out_path <- load argv 2 ;;
  if samopen_write fs out_path hdr then
    emit (OpenedOutput out_path hdr) ;;
    mapped_read_count <- stream_records (pending infp) mapped_read_count ;;
    printf (line ("Mapped reads: " ++ printf_lld mapped_read_count)) ;;
    emit (Closed Outfp) ;;
    emit (Closed Infp) ;;
    exit_with 0
  else
    fprintf_stderr (line ("Failed to open output file " ++ out_path)) ;;
    exit_with 1.

(** A run of the program from the empty trace. *)
Definition run (argv : list string) : trace * outcome unit := main argv [].

End Program.

(** ** Vocabulary of the specification *)

(** A header as a SAM or BAM file can hold it: [n_targets] names and
    lengths, names that fit BAM's 32-bit [l_name], lengths in the range
    the format gives [LN] (below [2^31]), and a text that fits the 32-bit
    [l_text]. *)
Definition wf_header (h : bam_header_t) : bool :=
  (Z.of_nat (length (target_name h)) =? n_targets h)
  && (Z.of_nat (length (target_len h)) =? n_targets h)
  && (n_targets h <? 2 ^ 31)
  && forallb (fun name => Z.of_nat (strlen name) <? 2 ^ 31) (target_name h)
  && forallb (fun len => (0 <=? len) && (len <? 2 ^ 31)) (target_len h)
  && match text h with
     | None => true
     | Some t => Z.of_nat (strlen t) <? 2 ^ 32
     end.

(** [needle] occurs in [s] as a substring. *)
Definition occurs (needle s : string) : Prop :=
  exists a b : string, s = (a ++ needle ++ b)%string.

(** The header line that declares a reference. *)
Definition sq_line (name : string) (len : Z) : string :=
  ("@SQ" ++ String TAB ("SN:" ++ name ++ String TAB ("LN:" ++ decimal len ++ String NL EmptyString)))%string.

Definition regenerating_notice : event :=
  Stderr (line "No header found, regenerating.").

(** A record counts as mapped when bit 2 of its flag, [BAM_FUNMAP], is clear. *)
Definition is_mapped (b : bam1_t) : bool := negb (Z.testbit (flag b) 2).

Definition count_mapped (records : list bam1_t) : nat :=
  length (List.filter is_mapped records).

Definition stdout_of (tr : trace) : list string :=
  omap (fun e => match e with Stdout s => Some s | _ => None end) tr.

Definition records_read (tr : trace) : list bam1_t :=
  omap (fun e => match e with RecordRead b => Some b | _ => None end) tr.

Definition records_written (tr : trace) : list bam1_t :=
  omap (fun e => match e with RecordWritten b => Some b | _ => None end) tr.

(** The read and write events of a trace, in order. *)
Definition record_events (tr : trace) : trace :=
  List.filter (fun e => match e with RecordRead _ | RecordWritten _ => true | _ => false end) tr.

Definition handle_eqb (a b : handle) : bool :=
  match a, b with
  | Infp, Infp | Outfp, Outfp => true
  | _, _ => false
  end.

(** The containers a trace leaves open: opened and not closed since. *)
Fixpoint open_handles_from (opened : list handle) (tr : trace) : list handle :=
  match tr with
  | [] => opened
  | OpenedInput _ _ _ :: tr' => open_handles_from (opened ++ [Infp]) tr'
  | OpenedOutput _ _ :: tr' => open_handles_from (opened ++ [Outfp]) tr'
  | Closed fp :: tr' =>
      open_handles_from (List.filter (fun x => negb (handle_eqb x fp)) opened) tr'
  | _ :: tr' => open_handles_from opened tr'
  end.

Definition open_handles (tr : trace) : list handle := open_handles_from [] tr.

(** A C string holds no character 0. *)
Fixpoint c_string (s : string) : bool :=
  match s with
  | EmptyString => true
  | String c rest => negb (Ascii.eqb c zero) && c_string rest
  end.

(** [path] ends with [suffix] up to the case of letters. *)
Definition ends_with_nocase (suffix path : string) : bool :=
  (String.length suffix <=? String.length path)%nat
  && (strcasecmp (ptr_add path (String.length path - String.length suffix)) suffix =? 0).




(** The guard of lines 50-51 on one entry. *)
Definition strips (name : string) (len : Z) : bool :=
  String.prefix "chr" name && (3 <? String.length name)%nat && (3 <? len).

(** What the normaliser leaves at an index that held [name] and [len]. *)
Definition stripped_name (name : string) (len : Z) : string :=
  if strips name len then ptr_add name 3 else name.

Definition stripped_len (name : string) (len : Z) : Z :=
  if strips name len then uint32 (Z.of_nat (String.length (ptr_add name 3))) else len.

(** The table after [count] rounds from index [from]: the other fields keep
    their values, the indices outside the range keep their entries, and
    each index inside holds its stripped entry. *)
Record table_after (from count : nat) (h h' : bam_header_t) : Prop := {
  after_n_targets : n_targets h' = n_targets h;
  after_text : text h' = text h;
  after_l_text : l_text h' = l_text h;
  after_names : length (target_name h') = length (target_name h);
  after_lens : length (target_len h') = length (target_len h);
  after_outside : forall j : nat,
    (j < from \/ from + count <= j)%nat ->
    target_name h' !! j = target_name h !! j /\
    target_len h' !! j = target_len h !! j;
  after_inside : forall (j : nat) (name : string) (len : Z),
    (from <= j < from + count)%nat ->
    target_name h !! j = Some name -> target_len h !! j = Some len ->
    target_name h' !! j = Some (stripped_name name len) /\
    target_len h' !! j = Some (stripped_len name len)
}.

(** The lines of a header text, one after the other. *)
Definition join (lines : list string) : string := foldr append EmptyString lines.

(** The events are all lines on the diagnostic stream. *)
Definition diagnostics (evs : trace) : Prop :=
  Forall (fun e => exists s, e = Stderr s) evs.

(** A piece of program that extends the trace by diagnostics only and does
    not end the process. *)
Definition quiet {A} (m : prog A) : Prop :=
  forall (tr tr' : trace) (o : outcome A),
    m tr = (tr', o) ->
    (exists evs, tr' = tr ++ evs /\ diagnostics evs) /\
    (forall status, o <> Exited status).

(** What one round of the loop adds to the trace. *)
Definition copy_events (b : bam1_t) : trace := [RecordRead b; RecordWritten b].

(** The counter of line 100 after the records, from the value [count]. *)
Fixpoint tally (records : list bam1_t) (count : Z) : Z :=
  match records with
  | [] => count
  | b :: rest =>
      tally rest (if Z.land (flag b) BAM_FUNMAP =? 0 then sint64 (count + 1) else count)
  end.

(** The trace of a successful run that found the header [hdr]. *)
Definition success_trace (tr1 : trace) (out_path : string) (hdr : bam_header_t)
    (infp : samfile_t) : trace :=
  tr1 ++ [OpenedOutput out_path hdr] ++ flat_map copy_events (pending infp)
      ++ [Stdout (line ("Mapped reads: " ++ printf_lld (tally (pending infp) 0)));
          Closed Outfp; Closed Infp].

(** The runs of the program, by the way they end. *)
Inductive run_shape (fs : samtools) (argv : list string) :
    trace -> outcome unit -> Prop :=
| run_refused (tr : trace) :
    diagnostics tr ->
    run_shape fs argv tr (Exited 1)
| run_header_crash (in_path in_mode : string) (aux : option string)
    (infp : samfile_t) (debug_level : Z) (evs : trace) :
    argv !! 1%nat = Some in_path ->
    samopen_read fs in_path in_mode aux = Some infp ->
    prepare_header debug_level (header infp) [OpenedInput in_path in_mode aux] =
      (OpenedInput in_path in_mode aux :: evs, Crashed) ->
    diagnostics evs ->
    run_shape fs argv (OpenedInput in_path in_mode aux :: evs) Crashed
| run_no_output (in_path in_mode : string) (aux : option string)
    (infp : samfile_t) (evs : trace) :
    argv !! 1%nat = Some in_path ->
    samopen_read fs in_path in_mode aux = Some infp ->
    diagnostics evs ->
    run_shape fs argv (OpenedInput in_path in_mode aux :: evs) (Exited 1)
| run_success (in_path in_mode out_path : string) (aux : option string)
    (infp : samfile_t) (debug_level : Z) (hdr : bam_header_t) (evs : trace) :
    argv !! 1%nat = Some in_path ->
    argv !! 2%nat = Some out_path ->
    samopen_read fs in_path in_mode aux = Some infp ->
    prepare_header debug_level (header infp) [OpenedInput in_path in_mode aux] =
      (OpenedInput in_path in_mode aux :: evs, Done hdr) ->
    diagnostics evs ->
    samopen_write fs out_path hdr = true ->
    run_shape fs argv
      (success_trace (OpenedInput in_path in_mode aux :: evs) out_path hdr infp)
      (Exited 0).

(** ** Vocabulary for the diagnostics and the order of events *)

(** Verbose mode: bit 0 of [debug_level]. *)
Definition verbose (debug_level : Z) : bool := negb (Z.land debug_level 1 =? 0).

(** The entries of the reference table, name and recorded length. *)
Definition entries (h : bam_header_t) : list (string * Z) :=
  zip (target_name h) (target_len h).

(** The line the normaliser writes in verbose mode when it renames an entry:
    the old name and the name without its first three characters. *)
Definition rename_line (entry : string * Z) : event :=
  Stderr (line ("Removing 'chr' prefix. " ++ entry.1 ++ " becomes "
                  ++ substring 3 (String.length entry.1 - 3) entry.1)).

Definition renamed (entry : string * Z) : bool := strips entry.1 entry.2.

(** The events of a trace that are not diagnostics. *)
Definition observable (tr : trace) : trace :=
  List.filter (fun e => match e with Stderr _ => false | _ => true end) tr.

(** Two pieces of program whose outcome is the same whatever the traces
    they start from. *)
Definition same_result {A} (m m' : prog A) : Prop :=
  forall tr tr' : trace, snd (m tr) = snd (m' tr').

(** How far a container has come. *)
Inductive handle_state : Type := Unopened | Open | Shut.

Record containers : Type := {
  input_state : handle_state;
  output_state : handle_state
}.

Definition is_open (s : handle_state) : bool :=
  match s with Open => true | _ => false end.

Definition is_unopened (s : handle_state) : bool :=
  match s with Unopened => true | _ => false end.

(** The discipline of the two containers: each is opened at most once, the
    output only while the input is open; a record is read only from the
    open input and written only to the open output; only an open
    container is closed, and a closed one is not touched again. *)
Definition protocol_step (st : containers) (e : event) : option containers :=
  match e with
  | Stdout _ | Stderr _ => Some st
  | OpenedInput _ _ _ =>
      if is_unopened (input_state st)
      then Some {| input_state := Open; output_state := output_state st |}
      else None
  | OpenedOutput _ _ =>
      if is_open (input_state st) && is_unopened (output_state st)
      then Some {| input_state := input_state st; output_state := Open |}
      else None
  | RecordRead _ => if is_open (input_state st) then Some st else None
  | RecordWritten _ => if is_open (output_state st) then Some st else None
  | Closed Infp =>
      if is_open (input_state st)
      then Some {| input_state := Shut; output_state := output_state st |}
      else None
  | Closed Outfp =>
      if is_open (output_state st)
      then Some {| input_state := input_state st; output_state := Shut |}
      else None
  end.

Fixpoint protocol_run (st : containers) (tr : trace) : option containers :=
  match tr with
  | [] => Some st
  | e :: tr' =>
      match protocol_step st e with
      | Some st' => protocol_run st' tr'
      | None => None
      end
  end.

Definition nothing_open : containers :=
  {| input_state := Unopened; output_state := Unopened |}.

(** The reference hint lines 22-26 compute from the arguments that follow
    the two paths: [samfaipath] of the first of them unless it is [-v]. *)
Definition reference_hint (fs : samtools) (rest : list string) : option string :=
  match rest with
  | [] => None
  | hint :: _ => if strcmp hint "-v" =? 0 then None else samfaipath fs hint
  end.

(** The calls of [samopen] for reading that a trace records. *)
Definition inputs_opened (tr : trace) : list (string * string * option string) :=
  omap (fun e => match e with OpenedInput p m a => Some (p, m, a) | _ => None end) tr.

(** The usage text of [show_usage], as it reaches the diagnostic stream. *)
Definition usage_text : trace :=
  [Stderr (line "Usage:");
   Stderr (line "  ./sam_bam_verify <input.sam|input.bam> <output.bam> [-v]");
   Stderr (line "    -v   Verbose output (to stderr).")].

(** ** Examples *)

Definition example_table : bam_header_t :=
  {| n_targets := 4;
     target_name := ["chr1"; "chr"; "chrM"; "2"]%string;
     target_len := [248956422; 100; 3; 500];
     l_text := 0;
     text := Some EmptyString |}.

Definition example_sq_text : string :=
  ("@SQ" ++ String TAB ("SN:chrX" ++ String TAB "LN:156040895"))%string.

Definition example_no_text : bam_header_t :=
  {| n_targets := 2;
     target_name := ["chr1"; "chrX"]%string;
     target_len := [248956422; 156040895];
     l_text := 0;
     text := Some EmptyString |}.

Definition example_empty : bam_header_t :=
  {| n_targets := 0; target_name := []; target_len := []; l_text := 0; text := None |}.

Definition record_with_flag (f : Z) : bam1_t := {| flag := f; payload := [f; 0; 1] |}.

(** Ten records, three of them ([4], [77], [141]) unmapped. *)
Definition ten_records : list bam1_t :=
  map record_with_flag [0; 16; 4; 99; 147; 77; 141; 0; 16; 83].

Definition example_header : bam_header_t :=
  {| n_targets := 2;
     target_name := ["chr1"; "chrX"]%string;
     target_len := [248956422; 156040895];
     l_text := 50;
     text := Some (sq_line "chr1" 248956422 ++ sq_line "chrX" 156040895)%string |}.

(** A file system with one readable file, [reads.sam], in which only
    [out.bam] can be created. *)
Definition example_fs : samtools :=
  {| samfaipath := fun _ => None;
     samopen_read := fun path _ _ =>
       if String.eqb path "reads.sam"
       then Some {| header := example_header; pending := ten_records |}
       else None;
     samopen_write := fun path _ => String.eqb path "out.bam" |}.

Definition example_argv : list string :=
  ["sam_bam_verify"; "reads.sam"; "out.bam"]%string.

(** [example_fs] with a reference index beside every reference file. *)
Definition hint_fs : samtools :=
  {| samfaipath := fun ref => Some (ref ++ ".fai")%string;
     samopen_read := samopen_read example_fs;
     samopen_write := samopen_write example_fs |}.

(** A file system whose one file, [reads.sam], has the empty header. *)
Definition empty_fs : samtools :=
  {| samfaipath := fun _ => None;
     samopen_read := fun path _ _ =>
       if String.eqb path "reads.sam"
       then Some {| header := example_empty; pending := [] |}
       else None;
     samopen_write := fun _ _ => true |}.


(** A header text whose one [@SQ] line ends with its [SN] field. *)
Definition example_sn_last : string :=
  ("@SQ" ++ String TAB ("LN:100" ++ String TAB (line "SN:chr")))%string.

(** * Verification *)

(** ** Running the monad *)

Lemma bind_done {A B} (m : prog A) (k : A -> prog B) (tr tr' : trace) (a : A) :
  m tr = (tr', Done a) -> bind m k tr = k a tr'.
Proof. unfold bind; now intros ->. Qed.

Lemma bind_exited {A B} (m : prog A) (k : A -> prog B) (tr tr' : trace) (status : Z) :
  m tr = (tr', Exited status) -> bind m k tr = (tr', Exited status).
Proof. unfold bind; now intros ->. Qed.

Lemma load_some {A} (a : list A) (i : nat) (x : A) (tr : trace) :
  a !! i = Some x -> load a i tr = (tr, Done x).
Proof. unfold load; now intros ->. Qed.

(** ** Facts about C strings *)

Section StringFacts.

Local Open Scope nat_scope.

Lemma strstr_here (s needle : string) :
  strstr s needle = Some 0 <-> String.prefix needle s = true.
Proof.
  destruct s as [|c rest]; cbn [strstr];
    destruct (String.prefix needle _) eqn:E; split; try done.
  destruct (strstr rest needle); discriminate.
Qed.

Lemma substring_whole (s : string) : substring 0 (String.length s) s = s.
Proof. induction s as [|c s IH]; simpl; [reflexivity | now rewrite IH]. Qed.

Lemma ptr_add_substring (s : string) (n : nat) :
  ptr_add s n = substring n (String.length s - n) s.
Proof.
  revert s; induction n as [|n IH]; intros s.
  - rewrite Nat.sub_0_r, substring_whole. now destruct s.
  - destruct s as [|c s]; simpl; [reflexivity | apply IH].
Qed.

End StringFacts.

(** ** The reference table normaliser *)

Lemma wf_header_unfold (h : bam_header_t) :
  wf_header h = true ->
  Z.of_nat (length (target_name h)) = n_targets h /\
  Z.of_nat (length (target_len h)) = n_targets h /\
  n_targets h < 2 ^ 31 /\
  (forall name, In name (target_name h) -> Z.of_nat (strlen name) < 2 ^ 31) /\
  (forall len, In len (target_len h) -> 0 <= len < 2 ^ 31) /\
  (forall t, text h = Some t -> Z.of_nat (strlen t) < 2 ^ 32).
Proof.
  unfold wf_header. rewrite !andb_true_iff, !forallb_forall, !Z.eqb_eq, Z.ltb_lt.
  intros [[[[[Hn Hl] Hb] Hnames] Hlens] Ht].
  split; [exact Hn|]. split; [exact Hl|]. split; [exact Hb|]. split; [|split].
  - intros name Hin. apply Z.ltb_lt. auto.
  - intros len Hin. apply Hlens in Hin. apply andb_true_iff in Hin. lia.
  - intros t Et. rewrite Et in Ht. lia.
Qed.

Lemma wf_header_lengths (h : bam_header_t) :
  wf_header h = true ->
  length (target_name h) = Z.to_nat (n_targets h) /\
  length (target_len h) = Z.to_nat (n_targets h).
Proof. intros H. apply wf_header_unfold in H. lia. Qed.

Lemma wf_header_name (h : bam_header_t) (i : nat) (name : string) :
  wf_header h = true -> target_name h !! i = Some name ->
  Z.of_nat (String.length name) < 2 ^ 31.
Proof.
  intros H Hi. apply wf_header_unfold in H as (_ & _ & _ & H & _).
  apply H, list_elem_of_In. eapply list_elem_of_lookup_2, Hi.
Qed.

Lemma wf_header_len (h : bam_header_t) (i : nat) (len : Z) :
  wf_header h = true -> target_len h !! i = Some len -> 0 <= len < 2 ^ 31.
Proof.
  intros H Hi. apply wf_header_unfold in H as (_ & _ & _ & _ & H & _).
  apply H, list_elem_of_In. eapply list_elem_of_lookup_2, Hi.
Qed.

Lemma strip_target_run (debug_level : Z) (i : nat) (h : bam_header_t)
    (tr : trace) (name : string) (len : Z) :
  target_name h !! i = Some name -> target_len h !! i = Some len ->
  exists tr',
    strip_target debug_level i h tr =
      (tr', Done (if strips name len
                  then set_target i (ptr_add name 3)
                         (uint32 (Z.of_nat (String.length (ptr_add name 3)))) h
                  else h)).
Proof.
  intros Hn Hl. unfold strip_target, strips.
  rewrite (bind_done _ _ _ _ _ (load_some _ _ _ tr Hn)).
  destruct (decide (strstr name "chr" = Some 0%nat)) as [Hp|Hp].
  - apply strstr_here in Hp as ->. cbn [andb]. unfold strlen.
    destruct (3 <? String.length name)%nat; cbn [andb]; [|by eexists].
    rewrite (bind_done _ _ _ _ _ (load_some _ _ _ tr Hl)).
    destruct (3 <? len); [|by eexists].
    unfold strdup. destruct (decide (Z.land debug_level 1 <> 0)); by eexists.
  - rewrite strstr_here in Hp. apply not_true_is_false in Hp as ->. by eexists.
Qed.

Lemma normalize_loop (debug_level : Z) (count : nat) :
  forall (from : nat) (h : bam_header_t) (tr : trace),
    (from + count <= length (target_name h))%nat ->
    (from + count <= length (target_len h))%nat ->
    exists h' tr',
      for_loop from count (strip_target debug_level) h tr = (tr', Done h') /\
      table_after from count h h'.
Proof.
  induction count as [|count IH]; intros from h tr Hn Hl.
  - exists h, tr. split; [reflexivity|]. split; try done. lia.
  - destruct (lookup_lt_is_Some_2 (target_name h) from) as [name En]; [lia|].
    destruct (lookup_lt_is_Some_2 (target_len h) from) as [len El]; [lia|].
    destruct (strip_target_run debug_level from h tr name len En El) as [tr1 Hstep].
    set (h1 := if strips name len
               then set_target from (ptr_add name 3)
                      (uint32 (Z.of_nat (String.length (ptr_add name 3)))) h
               else h) in Hstep.
    assert (length (target_name h1) = length (target_name h)) as Hn1
      by (subst h1; destruct (strips name len); simpl; [apply length_insert|done]).
    assert (length (target_len h1) = length (target_len h)) as Hl1
      by (subst h1; destruct (strips name len); simpl; [apply length_insert|done]).
    destruct (IH (S from) h1 tr1) as (h' & tr' & Hrun & Hafter); [lia..|].
    exists h', tr'. split.
    { cbn [for_loop]. rewrite (bind_done _ _ _ _ _ Hstep). exact Hrun. }
    destruct Hafter as [A1 A2 A3 A4 A5 Aout Ain].
    assert (forall j, j <> from ->
              target_name h1 !! j = target_name h !! j /\
              target_len h1 !! j = target_len h !! j) as Hother.
    { intros j Hj. subst h1. destruct (strips name len); simpl; [|done].
      by rewrite !list_lookup_insert_ne. }
    assert (target_name h1 !! from = Some (stripped_name name len) /\
            target_len h1 !! from = Some (stripped_len name len)) as Hhere.
    { unfold stripped_name, stripped_len. subst h1.
      destruct (strips name len); simpl; [|done].
      rewrite !list_lookup_insert_eq; [done|lia..]. }
    split.
    + rewrite A1. subst h1. by destruct (strips name len).
    + rewrite A2. subst h1. by destruct (strips name len).
    + rewrite A3. subst h1. by destruct (strips name len).
    + lia.
    + lia.
    + intros j Hj. destruct (Aout j) as [-> ->]; [lia|]. apply Hother. lia.
    + intros j nm ln Hj Hnm Hln. destruct (decide (j = from)) as [->|Hne].
      * destruct (Aout from) as [-> ->]; [lia|]. congruence.
      * destruct (Hother j Hne) as [E1 E2].
        apply Ain; [lia|congruence..].
Qed.

Lemma uint32_small (z : Z) : 0 <= z < 2 ^ 32 -> uint32 z = z.
Proof. intros H. unfold uint32. now apply Z.mod_small. Qed.

(** C1. Every reference entry of a loaded header whose name begins with
    ["chr"], is longer than 3 characters and whose recorded length exceeds 3
    gets the name that follows the first 3 characters and, as its length,
    the character count of that new name; every other entry, and the rest
    of the header, is left as it was. *)
Theorem normalize_table_strips_chr (debug_level : Z) (h : bam_header_t) (tr : trace) :
  wf_header h = true ->
  exists (h' : bam_header_t) (tr' : trace),
    normalize_table debug_level h tr = (tr', Done h') /\
    n_targets h' = n_targets h /\ text h' = text h /\ l_text h' = l_text h /\
    length (target_name h') = length (target_name h) /\
    length (target_len h') = length (target_len h) /\
    forall (i : nat) (name : string) (len : Z),
      target_name h !! i = Some name -> target_len h !! i = Some len ->
      if String.prefix "chr" name && (3 <? String.length name)%nat && (3 <? len)
      then
        let new_name := substring 3 (String.length name - 3) name in
        target_name h' !! i = Some new_name /\
        target_len h' !! i = Some (Z.of_nat (String.length new_name))
      else
        target_name h' !! i = Some name /\ target_len h' !! i = Some len.
Proof.
  intros Hwf. destruct (wf_header_lengths h Hwf) as [Hn Hl].
  destruct (normalize_loop debug_level (Z.to_nat (n_targets h)) 0 h tr)
    as (h' & tr' & Hrun & [A1 A2 A3 A4 A5 Aout Ain]); [lia..|].
  exists h', tr'. repeat split; try done.
  intros i name len Hi Hlen.
  assert (i < Z.to_nat (n_targets h))%nat as Hlt
    by (rewrite <- Hn; eapply lookup_lt_Some, Hi).
  destruct (Ain i name len) as [E1 E2]; [lia|done..|].
  rewrite E1, E2. unfold stripped_name, stripped_len, strips.
  destruct (String.prefix "chr" name && (3 <? String.length name)%nat && (3 <? len));
    [|done].
  cbv zeta. rewrite <- ptr_add_substring. split; [done|]. f_equal.
  apply uint32_small. pose proof (wf_header_name h i name Hwf Hi).
  rewrite length_ptr_add. lia.
Qed.

(** The theorem at a table with one entry of each kind: ["chr1"] of length
    248956422 becomes ["1"] of length 1. *)
Lemma normalize_table_strips_chr_witness :
  wf_header example_table = true /\
  exists (h' : bam_header_t) (tr' : trace),
    normalize_table 0 example_table [] = (tr', Done h') /\
    (target_name h' !! 0%nat = Some "1"%string /\ target_len h' !! 0%nat = Some 1) /\
    (target_name h' !! 1%nat = Some "chr"%string /\ target_len h' !! 1%nat = Some 100) /\
    (target_name h' !! 2%nat = Some "chrM"%string /\ target_len h' !! 2%nat = Some 3) /\
    (target_name h' !! 3%nat = Some "2"%string /\ target_len h' !! 3%nat = Some 500).
Proof.
  split; [reflexivity|].
  destruct (normalize_table_strips_chr 0 example_table [] eq_refl)
    as (h' & tr' & Hrun & _ & _ & _ & _ & _ & Hentry).
  exists h', tr'. split; [exact Hrun|].
  repeat split.
  - apply (Hentry 0%nat "chr1"%string 248956422); reflexivity.
  - apply (Hentry 0%nat "chr1"%string 248956422); reflexivity.
  - apply (Hentry 1%nat "chr"%string 100); reflexivity.
  - apply (Hentry 1%nat "chr"%string 100); reflexivity.
  - apply (Hentry 2%nat "chrM"%string 3); reflexivity.
  - apply (Hentry 2%nat "chrM"%string 3); reflexivity.
  - apply (Hentry 3%nat "2"%string 500); reflexivity.
  - apply (Hentry 3%nat "2"%string 500); reflexivity.
Defined.

(** ** The header text rewriter *)

Section Occurrences.

Local Open Scope nat_scope.
Local Open Scope string_scope.

Lemma append_assoc (a b c : string) : (a ++ b) ++ c = a ++ (b ++ c).
Proof. induction a as [|x a IH]; simpl; [reflexivity | now rewrite IH]. Qed.

Lemma append_empty_r (a : string) : a ++ EmptyString = a.
Proof. induction a as [|x a IH]; simpl; [reflexivity | now rewrite IH]. Qed.

Lemma before_app (a b : string) (k : nat) :
  before (a ++ b) (String.length a + k) = a ++ before b k.
Proof. induction a as [|x a IH]; simpl; [reflexivity | now rewrite IH]. Qed.

Lemma ptr_add_app (a b : string) (k : nat) :
  ptr_add (a ++ b) (String.length a + k) = ptr_add b k.
Proof. induction a as [|x a IH]; simpl; [reflexivity | exact IH]. Qed.

Lemma prefix_app (needle rest : string) : String.prefix needle (needle ++ rest) = true.
Proof.
  induction needle as [|x needle IH]; simpl; [now destruct rest|].
  destruct (ascii_dec x x); [exact IH | contradiction].
Qed.

Lemma prefix_split (needle s : string) :
  String.prefix needle s = true -> s = needle ++ ptr_add s (String.length needle).
Proof.
  revert s; induction needle as [|x needle IH]; intros [|y s]; simpl; try done.
  destruct (ascii_dec x y) as [->|]; [|done].
  intros H. f_equal. now apply IH.
Qed.

(** A hit of [strstr] cuts the haystack in three: what is before the hit
    (as long as the offset), the needle, and the rest. *)
Lemma strstr_split (haystack needle : string) (p : nat) :
  strstr haystack needle = Some p ->
  exists a b : string,
    haystack = a ++ needle ++ b /\ String.length a = p.
Proof.
  revert p; induction haystack as [|c rest IH]; intros p; cbn [strstr].
  - destruct (String.prefix needle EmptyString) eqn:E; [|done].
    intros [= <-]. exists EmptyString, (ptr_add EmptyString (String.length needle)).
    split; [|reflexivity]. now apply prefix_split.
  - destruct (String.prefix needle (String c rest)) eqn:E.
    + intros [= <-]. exists EmptyString, (ptr_add (String c rest) (String.length needle)).
      split; [|reflexivity]. now apply prefix_split.
    + destruct (strstr rest needle) as [q|] eqn:Eq; [|done].
      intros [= <-]. destruct (IH q eq_refl) as (a & b & -> & <-).
      exists (String c a), b. split; reflexivity.
Qed.

(** [strstr] returns [NULL] exactly when the needle does not occur. *)
Lemma strstr_none (haystack needle : string) :
  strstr haystack needle = None <-> ~ occurs needle haystack.
Proof.
  split.
  - intros Hnone (a & b & ->). revert Hnone.
    induction a as [|x a IH]; cbn [append strstr].
    + now rewrite (proj2 (strstr_here (needle ++ b) needle) (prefix_app needle b)).
    + destruct (String.prefix needle (String x (a ++ needle ++ b))); [done|].
      destruct (strstr (a ++ needle ++ b) needle); [done|]. intros _. now apply IH.
  - intros Hno. destruct (strstr haystack needle) as [p|] eqn:E; [|reflexivity].
    destruct (strstr_split _ _ _ E) as (a & b & -> & _).
    exfalso. apply Hno. now exists a, b.
Qed.

(** A hit of [strstr] is the first occurrence. *)
Lemma strstr_first (haystack needle : string) (p : nat) :
  strstr haystack needle = Some p ->
  forall a b : string, haystack = a ++ needle ++ b -> p <= String.length a.
Proof.
  revert p; induction haystack as [|c rest IH]; intros p Hp a b E.
  - destruct a; [|discriminate]. simpl in E.
    rewrite (proj2 (strstr_here EmptyString needle)) in Hp
      by (rewrite E; apply prefix_app).
    injection Hp as <-. lia.
  - cbn [strstr] in Hp. destruct (String.prefix needle (String c rest)) eqn:Epre.
    + injection Hp as <-. lia.
    + destruct (strstr rest needle) as [q|] eqn:Eq; [|discriminate].
      injection Hp as <-. destruct a as [|x a]; simpl in E.
      * rewrite E, prefix_app in Epre. discriminate.
      * injection E as -> ->. simpl. specialize (IH q eq_refl a b eq_refl). lia.
Qed.

Lemma append_split (a a0 u v : string) :
  a ++ u = a0 ++ v -> String.length a0 <= String.length a ->
  exists x : string, a = a0 ++ x /\ v = x ++ u.
Proof.
  revert a; induction a0 as [|c a0 IH]; intros a E Hlen.
  - exists a. split; [reflexivity | now symmetry].
  - destruct a as [|d a]; [simpl in Hlen; lia|].
    simpl in E. injection E as -> E. destruct (IH a E) as (x & -> & ->); [simpl in Hlen; lia|].
    now exists x.
Qed.

(** The buffer after the copy of line 80 at a hit of ["SN:chr"], bytes taken
    from the left: the ["chr"] is gone. *)
Lemma strcpy_down_hit (a b : string) :
  strcpy_down (a ++ "SN:chr" ++ b) (String.length a + 3) (String.length a + 6)
  = a ++ "SN:" ++ b.
Proof.
  unfold strcpy_down. rewrite before_app, ptr_add_app. simpl.
  now rewrite append_assoc.
Qed.

(** At a hit of ["SN:chr"] the copy of line 80 reads what follows the hit
    and its terminator, and writes three bytes lower: the ranges overlap
    exactly when at least three characters follow the hit. *)
Lemma strcpy_overlaps_hit (t : string) (p : nat) :
  strstr t "SN:chr" = Some p ->
  strcpy_overlaps t (p + 3) (p + 6) = (p + 9 <=? String.length t)%nat.
Proof.
  intros Hp. apply strstr_bound in Hp. simpl in Hp.
  unfold strcpy_overlaps, strlen. rewrite length_ptr_add.
  destruct (Nat.leb_spec (p + 9) (String.length t)).
  - apply andb_true_iff; split; apply Nat.ltb_lt; lia.
  - apply andb_false_iff. right. apply Nat.ltb_ge. lia.
Qed.

(** Taking the ["chr"] out of the first ["SN:chr"], when fewer than three
    characters follow it, leaves a text without ["SN:chr"]. *)
Lemma removal_near_end_clean (a b : string) :
  String.length b < 3 ->
  (forall a0 b0 : string,
      a ++ "SN:chr" ++ b = a0 ++ "SN:chr" ++ b0 -> String.length a <= String.length a0) ->
  ~ occurs "SN:chr" (a ++ "SN:" ++ b).
Proof.
  intros Hb Hfirst (a0 & b0 & E).
  assert (String.length a0 < String.length a) as Hlt.
  { apply (f_equal String.length) in E. rewrite !length_append in E. simpl in E. lia. }
  destruct (append_split a a0 _ _ E) as (x & -> & Ex); [lia|].
  rewrite length_append in Hlt.
  destruct x as [|c1 [|c2 [|c3 [|c4 [|c5 [|c6 x]]]]]];
    simpl in Hlt, Ex; try lia; try discriminate Ex.
  injection Ex as <- <- <- <- <- <- Ex.
  specialize (Hfirst a0 (x ++ "SN:chr" ++ b)).
  rewrite append_assoc, length_append in Hfirst. simpl in Hfirst.
  specialize (Hfirst eq_refl). lia.
Qed.

End Occurrences.

(** The loop of lines 79-81, one round at a time. *)
Lemma rewrite_loop_found (t : string) (p : nat) :
  strstr t "SN:chr" = Some p ->
  rewrite_loop t = rewrite_loop (strcpy_down t (p + 3) (p + 6)).
Proof.
  intros Hp. funelim (rewrite_loop t).
  - replace p with replace_here by congruence. reflexivity.
  - congruence.
Qed.

Lemma rewrite_loop_done (t : string) :
  strstr t "SN:chr" = None -> rewrite_loop t = t.
Proof.
  intros Hp. funelim (rewrite_loop t).
  - congruence.
  - reflexivity.
Qed.

(** The loop ends on a text without ["SN:chr"]. *)
Lemma rewrite_loop_clean (t : string) : strstr (rewrite_loop t) "SN:chr" = None.
Proof.
  funelim (rewrite_loop t).
  - match goal with IH : strstr (rewrite_loop _) _ = None |- _ => exact IH end.
  - match goal with E : strstr _ _ = None |- _ => exact E end.
Qed.

(** The overlap test of the loop, one round at a time. *)
Lemma rewrite_overlaps_found (t : string) (p : nat) :
  strstr t "SN:chr" = Some p ->
  rewrite_overlaps t =
    strcpy_overlaps t (p + 3) (p + 6)
    || rewrite_overlaps (strcpy_down t (p + 3) (p + 6)).
Proof.
  intros Hp. funelim (rewrite_overlaps t).
  - replace p with replace_here by congruence. reflexivity.
  - congruence.
Qed.

Lemma rewrite_overlaps_done (t : string) :
  strstr t "SN:chr" = None -> rewrite_overlaps t = false.
Proof.
  intros Hp. funelim (rewrite_overlaps t).
  - congruence.
  - reflexivity.
Qed.

(** Whether the loop meets an overlapping copy is decided in its first
    round: a round whose copy does not overlap leaves no ["SN:chr"]. *)
Lemma rewrite_overlaps_first_round (t : string) :
  rewrite_overlaps t =
    match strstr t "SN:chr" with
    | Some p => (p + 9 <=? String.length t)%nat
    | None => false
    end.
Proof.
  destruct (strstr t "SN:chr") as [p|] eqn:Hp; [|now apply rewrite_overlaps_done].
  rewrite (rewrite_overlaps_found t p Hp), (strcpy_overlaps_hit t p Hp).
  destruct (Nat.leb_spec (p + 9) (String.length t)) as [|Hshort]; [reflexivity|].
  cbn [orb]. apply rewrite_overlaps_done, strstr_none.
  pose proof (strstr_first _ _ _ Hp) as Hfirst.
  destruct (strstr_split _ _ _ Hp) as (a & b & -> & <-).
  rewrite strcpy_down_hit. apply removal_near_end_clean; [|exact Hfirst].
  rewrite !length_append in Hshort. simpl in Hshort. lia.
Qed.



(** C6. The rewrite is idempotent: a text in which ["SN:chr"] does not occur
    is left as it is, by the loop and by the whole step on a header; every
    text the rewriter produces is such a text, so rewriting it again
    changes nothing. *)
Theorem rewrite_idempotent :
  (forall t : string, ~ occurs "SN:chr" t -> rewrite_loop t = t) /\
  (forall t : string, ~ occurs "SN:chr" (rewrite_loop t)) /\
  (forall t : string, rewrite_loop (rewrite_loop t) = rewrite_loop t) /\
  (forall (h : bam_header_t) (t : string) (tr : trace),
      text h = Some t -> ~ occurs "SN:chr" t ->
      exists h' : bam_header_t,
        rewrite_text h tr = (tr, Done h') /\ text h' = Some t /\
        n_targets h' = n_targets h /\ target_name h' = target_name h /\
        target_len h' = target_len h) /\
  (forall (h h' : bam_header_t) (tr tr' : trace),
      rewrite_text h tr = (tr', Done h') -> rewrite_text h' tr' = (tr', Done h')).
Proof.
  assert (forall t : string, ~ occurs "SN:chr" t -> rewrite_loop t = t) as Hclean
    by (intros t Ht; apply rewrite_loop_done, strstr_none, Ht).
  assert (forall t : string, ~ occurs "SN:chr" (rewrite_loop t)) as Hout
    by (intros t; apply strstr_none, rewrite_loop_clean).
  repeat split.
  - exact Hclean.
  - exact Hout.
  - intros t. apply Hclean, Hout.
  - intros h t tr Ht Hno. unfold rewrite_text. rewrite Ht. unfold strdup.
    rewrite (Hclean t Hno). eexists. repeat split.
  - intros h h' tr tr'. unfold rewrite_text.
    destruct (text h) as [t|] eqn:Et; [|discriminate].
    intros [= <- <-]. simpl. unfold strdup. rewrite (Hclean _ (Hout t)).
    reflexivity.
Qed.

(** The theorem at the rewritten example line. *)
Lemma rewrite_idempotent_witness :
  rewrite_loop (rewrite_loop example_sq_text) = rewrite_loop example_sq_text /\
  ~ occurs "SN:chr" (rewrite_loop example_sq_text).
Proof.
  destruct rewrite_idempotent as (_ & Hout & Htwice & _).
  split; [apply Htwice | apply Hout].
Defined.

(** ** The header text synthesiser *)

Lemma sint32_small (z : Z) : 0 <= z < 2 ^ 31 -> sint32 z = z.
Proof.
  intros H. unfold sint32, sint.
  rewrite Z.mod_small; lia.
Qed.

Lemma asprintf_sq_line (name : string) (len : Z) :
  0 <= len < 2 ^ 31 -> asprintf_sq name len = sq_line name len.
Proof.
  intros H. unfold asprintf_sq, sq_line, printf_d, line.
  now rewrite sint32_small.
Qed.

Lemma regenerate_line_run (i : nat) (h : bam_header_t) (tr : trace)
    (name : string) (len : Z) (t : string) :
  target_name h !! i = Some name -> target_len h !! i = Some len ->
  text h = Some t ->
  regenerate_line i h tr =
    (tr, Done (set_text (Some (t ++ asprintf_sq name len)%string) h)).
Proof.
  intros Hn Hl Ht. unfold regenerate_line.
  rewrite (bind_done _ _ _ _ _ (load_some _ _ _ tr Hn)).
  rewrite (bind_done _ _ _ _ _ (load_some _ _ _ tr Hl)).
  now rewrite Ht.
Qed.

Lemma regenerate_loop (count : nat) :
  forall (from : nat) (h : bam_header_t) (tr : trace) (t : string),
    text h = Some t ->
    (from + count <= length (target_name h))%nat ->
    (from + count <= length (target_len h))%nat ->
    for_loop from count regenerate_line h tr =
      (tr, Done (set_text
                   (Some (t ++ join (zip_with asprintf_sq
                                       (take count (drop from (target_name h)))
                                       (take count (drop from (target_len h)))))%string)
                   h)).
Proof.
  induction count as [|count IH]; intros from h tr t Ht Hn Hl.
  - simpl. rewrite append_empty_r. unfold ret. do 2 f_equal.
    destruct h; simpl in *. now subst.
  - destruct (lookup_lt_is_Some_2 (target_name h) from) as [name En]; [lia|].
    destruct (lookup_lt_is_Some_2 (target_len h) from) as [len El]; [lia|].
    cbn [for_loop].
    rewrite (bind_done _ _ _ _ _ (regenerate_line_run from h tr name len t En El Ht)).
    rewrite (IH (S from) _ tr (t ++ asprintf_sq name len)%string); [|done|simpl; lia..].
    simpl target_name. simpl target_len.
    rewrite (drop_S _ _ _ En), (drop_S _ _ _ El). simpl.
    rewrite append_assoc. reflexivity.
Qed.

Lemma text_missing_spec (h : bam_header_t) :
  text_missing h = true <-> text h = None \/ text h = Some EmptyString.
Proof.
  unfold text_missing, strlen. destruct (text h) as [[|c t]|]; simpl; split;
    intros H; try done; auto; destruct H; done.
Qed.

Lemma zip_with_sq_lines (names : list string) (lens : list Z) :
  (forall len, In len lens -> 0 <= len < 2 ^ 31) ->
  zip_with asprintf_sq names lens = zip_with sq_line names lens.
Proof.
  revert lens; induction names as [|name names IH]; intros [|len lens] H; simpl; try done.
  rewrite asprintf_sq_line by (apply H; now left).
  f_equal. apply IH. intros l Hl. apply H. now right.
Qed.

(** The synthesiser in one equation: the guard of line 64 decides between
    the notice followed by the regenerated text, and nothing at all. *)
Lemma synthesize_text_run (h : bam_header_t) (tr : trace) :
  wf_header h = true ->
  synthesize_text h tr =
    if text_missing h && (0 <? n_targets h)
    then (tr ++ [regenerating_notice],
          Done (set_text (Some (join (zip_with sq_line (target_name h) (target_len h)))) h))
    else (tr, Done h).
Proof.
  intros Hwf. destruct (wf_header_lengths h Hwf) as [Hn Hl].
  apply wf_header_unfold in Hwf as (_ & _ & _ & _ & Hlens & _).
  unfold synthesize_text.
  destruct (text_missing h && (0 <? n_targets h)); [|reflexivity].
  unfold bind at 1, fprintf_stderr, emit. cbn [n_targets set_text].
  rewrite (regenerate_loop _ 0 _ _ EmptyString); [|done|simpl; lia..].
  cbn [target_name target_len set_text text append drop].
  rewrite <- Hn at 1. rewrite <- Hl. rewrite !firstn_all.
  rewrite zip_with_sq_lines by exact Hlens. reflexivity.
Qed.

Lemma stripped_name_length (name : string) (len : Z) :
  (String.length (stripped_name name len) <= String.length name)%nat.
Proof.
  unfold stripped_name. destruct (strips name len); [|lia].
  rewrite length_ptr_add. lia.
Qed.

Lemma stripped_len_range (name : string) (len : Z) :
  Z.of_nat (String.length name) < 2 ^ 31 -> 0 <= len < 2 ^ 31 ->
  0 <= stripped_len name len < 2 ^ 31.
Proof.
  intros Hname Hlen. unfold stripped_len. destruct (strips name len); [|lia].
  rewrite uint32_small; rewrite length_ptr_add; lia.
Qed.

(** The normaliser hands on a header that a file can hold. *)
Lemma normalize_table_wf (debug_level : Z) (h h1 : bam_header_t) (tr tr1 : trace) :
  wf_header h = true ->
  normalize_table debug_level h tr = (tr1, Done h1) ->
  wf_header h1 = true /\ table_after 0 (Z.to_nat (n_targets h)) h h1.
Proof.
  intros Hwf Hrun. destruct (wf_header_lengths h Hwf) as [Hn Hl].
  destruct (normalize_loop debug_level (Z.to_nat (n_targets h)) 0 h tr)
    as (h' & tr' & Hrun' & Hafter); [lia..|].
  unfold normalize_table in Hrun. rewrite Hrun' in Hrun.
  injection Hrun as <- <-. split; [|exact Hafter].
  destruct Hafter as [A1 A2 A3 A4 A5 Aout Ain].
  pose proof (wf_header_unfold h Hwf) as (W1 & W2 & W3 & _ & _ & W6).
  assert (forall j x, target_name h' !! j = Some x ->
            exists name len, target_name h !! j = Some name /\
                             target_len h !! j = Some len /\
                             x = stripped_name name len /\
                             target_len h' !! j = Some (stripped_len name len)) as Hentry.
  { intros j x Hx. pose proof (lookup_lt_Some _ _ _ Hx) as Hj.
    destruct (lookup_lt_is_Some_2 (target_name h) j) as [name En]; [lia|].
    destruct (lookup_lt_is_Some_2 (target_len h) j) as [len El]; [lia|].
    destruct (Ain j name len) as [E1 E2]; [lia|done..|].
    exists name, len. repeat split; congruence. }
  unfold wf_header. rewrite !andb_true_iff, !forallb_forall, !Z.eqb_eq, Z.ltb_lt.
  rewrite A1, A2, A4, A5. repeat split; try done.
  - intros x Hx. apply list_elem_of_In, list_elem_of_lookup_1 in Hx as [j Hj].
    destruct (Hentry j x Hj) as (name & len & En & _ & -> & _).
    pose proof (wf_header_name h j name Hwf En).
    pose proof (stripped_name_length name len). apply Z.ltb_lt. unfold strlen. lia.
  - intros x Hx. apply list_elem_of_In, list_elem_of_lookup_1 in Hx as [j Hj].
    pose proof (lookup_lt_Some _ _ _ Hj) as Hlt.
    destruct (lookup_lt_is_Some_2 (target_name h') j) as [y Ey]; [lia|].
    destruct (Hentry j y Ey) as (name & len & En & El & _ & E2).
    assert (x = stripped_len name len) as -> by congruence.
    pose proof (stripped_len_range name len (wf_header_name h j name Hwf En)
                  (wf_header_len h j len Hwf El)).
    apply andb_true_iff. lia.
  - destruct (text h) as [t|] eqn:Et; [|done]. apply Z.ltb_lt. now apply W6.
Qed.

(** ** The pre-streaming phase as a whole *)

Lemma prepare_header_run (debug_level : Z) (h h1 h2 : bam_header_t)
    (tr tr1 tr2 : trace) (t2 : string) :
  normalize_table debug_level h tr = (tr1, Done h1) ->
  synthesize_text h1 tr1 = (tr2, Done h2) ->
  text h2 = Some t2 ->
  exists tr' : trace,
    prepare_header debug_level h tr =
      (tr', Done (set_l_text (uint32 (Z.of_nat (strlen (rewrite_loop t2))))
                    (set_text (Some (rewrite_loop t2)) h2))).
Proof.
  intros Hnorm Hsynth Ht. unfold prepare_header.
  rewrite (bind_done _ _ _ _ _ Hnorm), (bind_done _ _ _ _ _ Hsynth).
  unfold rewrite_text at 1. rewrite Ht. unfold strdup, bind at 1, ret at 1.
  destruct (decide (Z.land debug_level 1 <> 0)); by eexists.
Qed.

Lemma prepare_header_crash (debug_level : Z) (h h1 h2 : bam_header_t)
    (tr tr1 tr2 : trace) :
  normalize_table debug_level h tr = (tr1, Done h1) ->
  synthesize_text h1 tr1 = (tr2, Done h2) ->
  text h2 = None ->
  prepare_header debug_level h tr = (tr2, Crashed).
Proof.
  intros Hnorm Hsynth Ht. unfold prepare_header.
  rewrite (bind_done _ _ _ _ _ Hnorm), (bind_done _ _ _ _ _ Hsynth).
  unfold rewrite_text at 1. now rewrite Ht.
Qed.

(** C5. In the run on a loaded header, the synthesiser works on the table
    the normaliser left.  It runs, announcing itself on the diagnostic
    stream, exactly when the text is absent or empty and the table is not
    empty, and then the text is one line [@SQ<TAB>SN:name<TAB>LN:length],
    newline included, per entry of that table, in table order.  Otherwise
    it does nothing; in particular a text that was there and not empty
    reaches the end of the phase as its own rewriting. *)
Theorem synthesis_only_without_text (debug_level : Z) (h : bam_header_t) (tr : trace) :
  wf_header h = true ->
  exists (h1 : bam_header_t) (tr1 : trace) (h2 : bam_header_t) (tr2 : trace),
    normalize_table debug_level h tr = (tr1, Done h1) /\
    synthesize_text h1 tr1 = (tr2, Done h2) /\
    (tr2 = tr1 ++ [regenerating_notice] /\ h2 <> h1 \/ tr2 = tr1 /\ h2 = h1) /\
    (tr2 = tr1 ++ [regenerating_notice] <->
       (text h = None \/ text h = Some EmptyString) /\ 0 < n_targets h) /\
    ((text h = None \/ text h = Some EmptyString) /\ 0 < n_targets h ->
       let lines := zip_with sq_line (target_name h1) (target_len h1) in
       let synthesized := join lines in
       Z.of_nat (length lines) = n_targets h /\
       h2 = set_text (Some synthesized) h1 /\
       exists (h' : bam_header_t) (tr' : trace),
         prepare_header debug_level h tr = (tr', Done h') /\
         text h' = Some (rewrite_loop synthesized)) /\
    (forall t : string, text h = Some t -> t <> EmptyString ->
       tr2 = tr1 /\ h2 = h1 /\
       exists (h' : bam_header_t) (tr' : trace),
         prepare_header debug_level h tr = (tr', Done h') /\
         text h' = Some (rewrite_loop t)).
Proof.
  intros Hwf. destruct (wf_header_lengths h Hwf) as [Hn Hl].
  destruct (normalize_loop debug_level (Z.to_nat (n_targets h)) 0 h tr)
    as (h1 & tr1 & Hnorm & _); [lia..|]. fold (normalize_table debug_level h) in Hnorm.
  destruct (normalize_table_wf _ _ _ _ _ Hwf Hnorm) as [Hwf1 [A1 A2 _ _ _ _ _]].
  pose proof (synthesize_text_run h1 tr1 Hwf1) as Hsynth.
  assert (text_missing h1 = text_missing h) as Hmiss
    by (unfold text_missing; now rewrite A2).
  rewrite Hmiss, A1 in Hsynth.
  assert (text_missing h && (0 <? n_targets h) = true <->
          (text h = None \/ text h = Some EmptyString) /\ 0 < n_targets h) as Hguard
    by (rewrite andb_true_iff, text_missing_spec, Z.ltb_lt; reflexivity).
  destruct (text_missing h && (0 <? n_targets h)) eqn:Eg.
  - apply proj1 in Hguard. specialize (Hguard eq_refl).
    set (synthesized := join (zip_with sq_line (target_name h1) (target_len h1))) in *.
    assert (forall t, text h = Some t -> t <> EmptyString -> False) as Hnot.
    { intros t Et Hne. destruct Hguard as [[E|E] _]; congruence. }
    assert (synthesized <> EmptyString) as Hlines.
    { subst synthesized. destruct (wf_header_lengths h1 Hwf1) as [L1 L2].
      destruct (target_name h1) as [|n1 ns]; [simpl in L1; lia|].
      destruct (target_len h1) as [|l1 ls]; [simpl in L2; lia|].
      discriminate. }
    exists h1, tr1, (set_text (Some synthesized) h1), (tr1 ++ [regenerating_notice]).
    split; [exact Hnorm|]. split; [exact Hsynth|]. split; [|split; [|split]].
    + left. split; [reflexivity|]. intros E. apply (f_equal text) in E.
      simpl in E. rewrite A2 in E. destruct Hguard as [[E'|E'] _]; congruence.
    + split; [intros _; exact Hguard | reflexivity].
    + intros _. cbv zeta. fold synthesized.
      split; [rewrite length_zip_with; destruct (wf_header_lengths h1 Hwf1); lia|].
      split; [reflexivity|].
      destruct (prepare_header_run debug_level h h1 _ tr tr1 _ synthesized Hnorm Hsynth)
        as [tr' Hrun]; [reflexivity|].
      eexists _, tr'. split; [exact Hrun|reflexivity].
    + intros t Et Hne. exfalso. eauto.
  - assert (~ ((text h = None \/ text h = Some EmptyString) /\ 0 < n_targets h)) as Hno
      by (intros G; apply Hguard in G; discriminate).
    exists h1, tr1, h1, tr1. split; [exact Hnorm|]. split; [exact Hsynth|].
    split; [|split; [|split]].
    + right. split; reflexivity.
    + split; [|intros G; contradiction].
      intros E. exfalso. apply (f_equal length) in E. rewrite length_app in E.
      simpl in E. lia.
    + intros G. contradiction.
    + intros t Et Hne. split; [reflexivity|]. split; [reflexivity|].
      destruct (prepare_header_run debug_level h h1 h1 tr tr1 tr1 t Hnorm Hsynth)
        as [tr' Hrun]; [congruence|].
      eexists _, tr'. split; [exact Hrun|reflexivity].
Qed.

(** The theorem at a header with an empty text and two references: the text
    that leaves the phase has the two lines of the normalised table. *)
Lemma synthesis_only_without_text_witness :
  wf_header example_no_text = true /\
  exists (h' : bam_header_t) (tr' : trace),
    prepare_header 0 example_no_text [] = (tr', Done h') /\
    text h' = Some (sq_line "1" 1 ++ sq_line "X" 1)%string.
Proof.
  split; [reflexivity|].
  destruct (synthesis_only_without_text 0 example_no_text [] eq_refl)
    as (h1 & tr1 & h2 & tr2 & Hnorm & _ & _ & _ & Hsynth & _).
  vm_compute in Hnorm. injection Hnorm as <- <-.
  destruct Hsynth as (_ & _ & h' & tr' & Hrun & Htext).
  { split; [right; reflexivity | reflexivity]. }
  exists h', tr'. split; [exact Hrun|]. rewrite Htext. reflexivity.
Defined.

(** With a text, or with at least one reference, the phase runs to its end
    on every header a file can hold. *)
Lemma prepare_header_total (debug_level : Z) (h : bam_header_t) (tr : trace) :
  wf_header h = true ->
  text h <> None \/ 0 < n_targets h ->
  exists (h' : bam_header_t) (tr' : trace),
    prepare_header debug_level h tr = (tr', Done h').
Proof.
  intros Hwf Hsome. destruct (wf_header_lengths h Hwf) as [Hn Hl].
  destruct (normalize_loop debug_level (Z.to_nat (n_targets h)) 0 h tr)
    as (h1 & tr1 & Hnorm & _); [lia..|].
  fold (normalize_table debug_level h) in Hnorm.
  destruct (normalize_table_wf _ _ _ _ _ Hwf Hnorm) as [Hwf1 [A1 A2 _ _ _ _ _]].
  pose proof (synthesize_text_run h1 tr1 Hwf1) as Hsynth.
  destruct (text_missing h1 && (0 <? n_targets h1)) eqn:Eg.
  - destruct (prepare_header_run debug_level h h1 _ tr tr1 _
                (join (zip_with sq_line (target_name h1) (target_len h1)))
                Hnorm Hsynth eq_refl) as [tr' Hrun].
    eauto.
  - destruct (text h1) as [t|] eqn:Et.
    + destruct (prepare_header_run debug_level h h1 h1 tr tr1 tr1 t Hnorm Hsynth Et)
        as [tr' Hrun]. eauto.
    + exfalso. unfold text_missing in Eg. rewrite Et, A1 in Eg. simpl in Eg.
      apply Z.ltb_ge in Eg. rewrite A2 in Et. destruct Hsome; [done|lia].
Qed.

(** ** Code that only writes diagnostics *)

Create HintDb quiet.

Lemma quiet_ret {A} (a : A) : quiet (ret a).
Proof.
  intros tr tr' o [= <- <-]. split; [|done].
  exists []. split; [by rewrite app_nil_r | constructor].
Qed.

Lemma quiet_crash {A} : quiet (@crash A).
Proof.
  intros tr tr' o [= <- <-]. split; [|done].
  exists []. split; [by rewrite app_nil_r | constructor].
Qed.

Lemma quiet_fprintf_stderr (s : string) : quiet (fprintf_stderr s).
Proof.
  intros tr tr' o [= <- <-]. split; [|done]. exists [Stderr s]. split; [done|].
  constructor; [by exists s | constructor].
Qed.

Lemma quiet_bind {A B} (m : prog A) (k : A -> prog B) :
  quiet m -> (forall a, quiet (k a)) -> quiet (bind m k).
Proof.
  intros Hm Hk tr tr' o. unfold bind.
  destruct (m tr) as [tr1 [a|status|]] eqn:Em;
    destruct (Hm _ _ _ Em) as [(evs1 & -> & D1) Hstay].
  - intros Ek. destruct (Hk a _ _ _ Ek) as [(evs2 & -> & D2) Hstay2].
    split; [|done].
    exists (evs1 ++ evs2). split; [by rewrite app_assoc|]. by apply Forall_app.
  - by destruct (Hstay status).
  - intros [= <- <-]. split; [by exists evs1 | done].
Qed.

Lemma quiet_load {A} (a : list A) (i : nat) : quiet (load a i).
Proof. unfold load. destruct (a !! i); [apply quiet_ret | apply quiet_crash]. Qed.

Lemma quiet_for_loop {A} (body : nat -> A -> prog A) (count : nat) :
  (forall i a, quiet (body i a)) -> forall from a, quiet (for_loop from count body a).
Proof.
  intros Hbody. induction count as [|count IH]; intros from a; simpl.
  - apply quiet_ret.
  - apply quiet_bind; [apply Hbody | intros a'; apply IH].
Qed.

#[local] Hint Resolve quiet_ret quiet_crash quiet_fprintf_stderr quiet_load : quiet.

Ltac quiet_steps :=
  repeat first
    [ apply quiet_bind; [|intros ?]
    | apply quiet_for_loop; intros ? ?
    | progress cbv zeta
    | match goal with
      | |- quiet (if ?c then _ else _) => destruct c
      | |- quiet (match ?x with _ => _ end) => destruct x
      end
    | solve [eauto with quiet] ].

Lemma quiet_strip_target (debug_level : Z) (i : nat) (h : bam_header_t) :
  quiet (strip_target debug_level i h).
Proof. unfold strip_target. quiet_steps. Qed.

Lemma quiet_regenerate_line (i : nat) (h : bam_header_t) : quiet (regenerate_line i h).
Proof. unfold regenerate_line. quiet_steps. Qed.

Lemma quiet_prepare_header (debug_level : Z) (h : bam_header_t) :
  quiet (prepare_header debug_level h).
Proof.
  unfold prepare_header, normalize_table, synthesize_text, rewrite_text.
  quiet_steps; auto using quiet_strip_target, quiet_regenerate_line.
Qed.

Lemma stdout_of_app (a b : trace) : stdout_of (a ++ b) = stdout_of a ++ stdout_of b.
Proof. apply omap_app. Qed.

Lemma records_read_app (a b : trace) :
  records_read (a ++ b) = records_read a ++ records_read b.
Proof. apply omap_app. Qed.

Lemma records_written_app (a b : trace) :
  records_written (a ++ b) = records_written a ++ records_written b.
Proof. apply omap_app. Qed.

Lemma record_events_app (a b : trace) :
  record_events (a ++ b) = record_events a ++ record_events b.
Proof. apply List.filter_app. Qed.

Lemma stdout_of_diagnostics (evs : trace) : diagnostics evs -> stdout_of evs = [].
Proof. induction 1 as [|e evs [s ->] _ IH]; [done|]. exact IH. Qed.

Lemma records_read_diagnostics (evs : trace) : diagnostics evs -> records_read evs = [].
Proof. induction 1 as [|e evs [s ->] _ IH]; [done|]. exact IH. Qed.

Lemma records_written_diagnostics (evs : trace) : diagnostics evs -> records_written evs = [].
Proof. induction 1 as [|e evs [s ->] _ IH]; [done|]. exact IH. Qed.

Lemma record_events_diagnostics (evs : trace) : diagnostics evs -> record_events evs = [].
Proof. induction 1 as [|e evs [s ->] _ IH]; [done|]. exact IH. Qed.

(** ** The record stream *)

Lemma land_funmap (x : Z) : (Z.land x BAM_FUNMAP =? 0) = negb (Z.testbit x 2).
Proof.
  unfold BAM_FUNMAP. change 4 with (2 ^ 2).
  destruct (Z.testbit x 2) eqn:Ebit; simpl.
  - apply Z.eqb_neq. intros E. apply (f_equal (fun z => Z.testbit z 2)) in E.
    rewrite Z.land_spec, Ebit, Z.pow2_bits_true in E by lia. discriminate.
  - apply Z.eqb_eq. apply Z.bits_inj'. intros n Hn.
    rewrite Z.land_spec, Z.bits_0, Z.pow2_bits_eqb by lia.
    destruct (Z.eqb_spec 2 n) as [<-|]; [now rewrite Ebit | apply andb_false_r].
Qed.

Lemma sint64_small (z : Z) : - 2 ^ 63 <= z < 2 ^ 63 -> sint64 z = z.
Proof. intros H. unfold sint64, sint. rewrite Z.mod_small; lia. Qed.

Lemma tally_count (records : list bam1_t) :
  forall count : Z,
    - 2 ^ 63 <= count ->
    count + Z.of_nat (count_mapped records) < 2 ^ 63 ->
    tally records count = count + Z.of_nat (count_mapped records).
Proof.
  unfold count_mapped.
  induction records as [|b rest IH]; intros count Hlo Hhi; simpl in *; [lia|].
  rewrite land_funmap. fold (is_mapped b) in *.
  destruct (is_mapped b); simpl in *.
  - rewrite sint64_small by lia. rewrite IH; lia.
  - now apply IH.
Qed.

Lemma stream_records_run (records : list bam1_t) :
  forall (count : Z) (tr : trace),
    stream_records records count tr =
      (tr ++ flat_map copy_events records, Done (tally records count)).
Proof.
  induction records as [|b rest IH]; intros count tr; simpl.
  - unfold ret. now rewrite app_nil_r.
  - unfold bind at 1, emit at 1. unfold bind at 1, emit at 1.
    rewrite IH. now rewrite <- !app_assoc.
Qed.

Lemma records_read_copy (records : list bam1_t) :
  records_read (flat_map copy_events records) = records.
Proof. induction records as [|b rest IH]; simpl; [done | now rewrite IH]. Qed.

Lemma records_written_copy (records : list bam1_t) :
  records_written (flat_map copy_events records) = records.
Proof. induction records as [|b rest IH]; simpl; [done | now rewrite IH]. Qed.

Lemma record_events_copy (records : list bam1_t) :
  record_events (flat_map copy_events records) = flat_map copy_events records.
Proof. induction records as [|b rest IH]; simpl; [done | now rewrite IH]. Qed.

Lemma stdout_of_copy (records : list bam1_t) :
  stdout_of (flat_map copy_events records) = [].
Proof. induction records as [|b rest IH]; simpl; [done | exact IH]. Qed.

(** ** Runs of [main] *)

Section Runs.

Variable fs : samtools.

(** [open_input] either stops with status 1 after diagnostics only, or
    opens the path given first and hands the container on. *)
Lemma open_input_cases (argv : list string) (tr tr' : trace)
    (o : outcome (samfile_t * Z)) :
  open_input fs argv tr = (tr', o) ->
  (o = Exited 1 /\ exists evs, tr' = tr ++ evs /\ diagnostics evs) \/
  (exists (in_path out_path in_mode : string) (aux : option string)
          (infp : samfile_t) (debug_level : Z),
      o = Done (infp, debug_level) /\
      tr' = tr ++ [OpenedInput in_path in_mode aux] /\
      argv !! 1%nat = Some in_path /\ argv !! 2%nat = Some out_path /\
      samopen_read fs in_path in_mode aux = Some infp).
Proof.
  unfold open_input.
  destruct (Z.of_nat (length argv) <? 3) eqn:Eargc.
  { intros [= <- <-]. left. split; [reflexivity|]. rewrite <- ?app_assoc.
    eexists. split; [reflexivity|]. repeat constructor; eexists; reflexivity. }
  apply Z.ltb_ge in Eargc.
  destruct argv as [|a0 [|in_path [|out_path rest]]]; simpl in Eargc; try lia.
  set (argv := a0 :: in_path :: out_path :: rest) in *.
  rewrite (bind_done _ _ _ _ _ (load_some argv 1 in_path tr eq_refl)).
  rewrite (bind_done _ _ _ _ _ (load_some argv 2 out_path tr eq_refl)).
  destruct (strcmp in_path out_path =? 0).
  { intros [= <- <-]. left. split; [reflexivity|]. rewrite <- ?app_assoc.
    eexists. split; [reflexivity|]. repeat constructor; eexists; reflexivity. }
  assert (exists aux0,
            (if 4 <=? Z.of_nat (length argv)
             then hint <- load argv 3;;
                  if strcmp hint "-v" =? 0 then ret None
                  else ret (samfaipath fs (strdup hint))
             else ret None) tr = (tr, Done aux0)) as [aux0 Eaux].
  { destruct (4 <=? Z.of_nat (length argv)) eqn:E4; [|by eexists].
    apply Z.leb_le in E4. destruct rest as [|hint rest]; [simpl in E4; lia|].
    rewrite (bind_done _ _ _ _ _ (load_some argv 3 hint tr eq_refl)).
    destruct (strcmp hint "-v" =? 0); by eexists. }
  rewrite (bind_done _ _ _ _ _ Eaux).
  assert (length argv = S (S (S (length rest)))) as Hargc by reflexivity.
  destruct (lookup_lt_is_Some_2 argv (Z.to_nat (Z.of_nat (length argv) - 1)))
    as [last Elast]; [lia|].
  rewrite (bind_done _ _ _ _ _ (load_some argv _ last tr Elast)).
  destruct (select_in_mode in_path aux0) as [in_mode aux].
  destruct (samopen_read fs in_path in_mode aux) as [infp|] eqn:Eopen.
  - intros [= <- <-]. right. by eexists in_path, out_path, in_mode, aux, infp, _.
  - intros [= <- <-]. left. split; [reflexivity|]. rewrite <- ?app_assoc.
    eexists. split; [reflexivity|]. repeat constructor; eexists; reflexivity.
Qed.

(** After the input is open, the run is decided by the header phase and by
    the opening of the output. *)
Lemma run_after_open (argv : list string) (tr0 : trace) (infp : samfile_t)
    (debug_level : Z) (out_path : string) :
  open_input fs argv [] = (tr0, Done (infp, debug_level)) ->
  argv !! 2%nat = Some out_path ->
  run fs argv =
    match prepare_header debug_level (header infp) tr0 with
    | (tr1, Done hdr) =>
        if samopen_write fs out_path hdr
        then (success_trace tr1 out_path hdr infp, Exited 0)
        else (tr1 ++ [Stderr (line ("Failed to open output file " ++ out_path))],
              Exited 1)
    | (tr1, Exited status) => (tr1, Exited status)
    | (tr1, Crashed) => (tr1, Crashed)
    end.
Proof.
  intros Hopen Hout. unfold run, main.
  rewrite (bind_done _ _ _ _ _ Hopen). unfold bam_header_dup.
  unfold bind at 1.
  destruct (prepare_header debug_level (header infp) tr0) as [tr1 [hdr| |]];
    try reflexivity.
  rewrite (bind_done _ _ _ _ _ (load_some argv 2 out_path tr1 Hout)).
  destruct (samopen_write fs out_path hdr); [|reflexivity].
  unfold bind at 1, emit at 1.
  rewrite (bind_done _ _ _ _ _ (stream_records_run _ _ _)).
  unfold success_trace. cbn. now rewrite <- !app_assoc.
Qed.

(** A run that ends before the input is open: status 1, diagnostics only. *)
Lemma run_without_input (argv : list string) (tr0 : trace) (status : Z) :
  open_input fs argv [] = (tr0, Exited status) ->
  run fs argv = (tr0, Exited 1) /\ diagnostics tr0.
Proof.
  intros Hopen. destruct (open_input_cases _ _ _ _ Hopen)
    as [[E (evs & -> & D)] | (? & ? & ? & ? & ? & ? & E & _)]; [|discriminate].
  injection E as ->. split; [|exact D].
  unfold run, main. now rewrite (bind_exited _ _ _ _ _ Hopen).
Qed.

Lemma run_has_shape (argv : list string) (tr : trace) (o : outcome unit) :
  run fs argv = (tr, o) -> run_shape fs argv tr o.
Proof.
  destruct (open_input fs argv []) as [tr0 o0] eqn:Hopen.
  destruct (open_input_cases _ _ _ _ Hopen)
    as [[-> (evs & -> & D)] |
        (in_path & out_path & in_mode & aux & infp & dbg & -> & -> & E1 & E2 & Eopen)].
  - destruct (run_without_input argv _ _ Hopen) as [-> _].
    intros [= <- <-]. now apply run_refused.
  - rewrite (run_after_open argv _ infp dbg out_path Hopen E2). simpl app.
    destruct (prepare_header dbg (header infp) [OpenedInput in_path in_mode aux])
      as [tr1 o1] eqn:Hprep.
    destruct (quiet_prepare_header _ _ _ _ _ Hprep) as [(evs & -> & D) Hstay].
    simpl app in *. destruct o1 as [hdr|status|].
    + destruct (samopen_write fs out_path hdr) eqn:Ew; intros [= <- <-].
      * by eapply run_success.
      * change (OpenedInput in_path in_mode aux :: evs ++ ?l)
          with (OpenedInput in_path in_mode aux :: (evs ++ l)).
        eapply run_no_output; [done..|].
        apply Forall_app. split; [done|]. repeat constructor. by eexists.
    + by destruct (Hstay status).
    + intros [= <- <-]. by eapply run_header_crash.
Qed.

(** C2. A run prints on standard output only when it succeeds, and then
    exactly one line, [Mapped reads: <count>], where the count is the number
    of records of the opened input whose [BAM_FUNMAP] bit is clear: the
    counter of the loop starts at zero and goes up by one at each such
    record.  (The counter is a [long long]; the count is taken below
    [2^63].) *)
Theorem mapped_reads_reported (argv : list string) (tr : trace) (o : outcome unit) :
  run fs argv = (tr, o) ->
  (o <> Exited 0 -> stdout_of tr = []) /\
  (o = Exited 0 ->
     exists (in_path in_mode : string) (aux : option string) (infp : samfile_t),
       argv !! 1%nat = Some in_path /\
       In (OpenedInput in_path in_mode aux) tr /\
       samopen_read fs in_path in_mode aux = Some infp /\
       (Z.of_nat (count_mapped (pending infp)) < 2 ^ 63 ->
          stdout_of tr =
            [line ("Mapped reads: " ++ decimal (Z.of_nat (count_mapped (pending infp))))])) /\
  (forall (records : list bam1_t) (tr0 : trace),
     Z.of_nat (count_mapped records) < 2 ^ 63 ->
     exists tr1 : trace,
       stream_records records 0 tr0 = (tr1, Done (Z.of_nat (count_mapped records)))).
Proof.
  intros Hrun. apply run_has_shape in Hrun.
  split; [|split].
  - intros Hfail. destruct Hrun as [tr D | ? ? ? ? ? evs _ _ _ D | ? ? ? ? evs _ _ D | ]; try done.
    + now apply stdout_of_diagnostics.
    + simpl. now apply stdout_of_diagnostics.
    + simpl. now apply stdout_of_diagnostics.
  - intros Hok.
    destruct Hrun as [| | | in_path in_mode out_path aux infp dbg hdr evs E1 E2 Eopen _ D _];
      try discriminate.
    exists in_path, in_mode, aux, infp. split; [done|]. split; [now left|].
    split; [done|]. intros Hcount.
    unfold success_trace.
    change (OpenedInput in_path in_mode aux :: evs)
      with ([OpenedInput in_path in_mode aux] ++ evs).
    rewrite !stdout_of_app, (stdout_of_diagnostics evs D), stdout_of_copy.
    unfold printf_lld. rewrite tally_count by lia. reflexivity.
  - intros records tr0 Hcount. eexists. rewrite stream_records_run.
    rewrite tally_count by lia. reflexivity.
Qed.

(** C3. The records written to the output are the records read from the
    input, in the same order, unchanged: in every run the written sequence
    equals the read one, and in a run that succeeds both are the input's
    whole sequence of records, each record written right after it is read. *)
Theorem records_copied_in_order (argv : list string) (tr : trace) (o : outcome unit) :
  run fs argv = (tr, o) ->
  records_written tr = records_read tr /\
  (o = Exited 0 ->
     exists (in_path in_mode : string) (aux : option string) (infp : samfile_t),
       argv !! 1%nat = Some in_path /\
       In (OpenedInput in_path in_mode aux) tr /\
       samopen_read fs in_path in_mode aux = Some infp /\
       records_read tr = pending infp /\
       records_written tr = pending infp /\
       record_events tr = flat_map (fun b => [RecordRead b; RecordWritten b]) (pending infp)).
Proof.
  intros Hrun. apply run_has_shape in Hrun.
  destruct Hrun as [tr D | ? ? ? ? ? evs _ _ _ D | ? ? ? ? evs _ _ D
                   | in_path in_mode out_path aux infp dbg hdr evs E1 E2 Eopen _ D _].
  - rewrite records_read_diagnostics, records_written_diagnostics by done. done.
  - split; [|discriminate]. cbn [records_written records_read omap list_omap].
    fold (records_written evs). fold (records_read evs).
    now rewrite records_read_diagnostics, records_written_diagnostics.
  - split; [|discriminate]. cbn [records_written records_read omap list_omap].
    fold (records_written evs). fold (records_read evs).
    now rewrite records_read_diagnostics, records_written_diagnostics.
  - assert (records_read (success_trace (OpenedInput in_path in_mode aux :: evs)
                            out_path hdr infp) = pending infp) as Hread.
    { unfold success_trace.
      change (OpenedInput in_path in_mode aux :: evs)
        with ([OpenedInput in_path in_mode aux] ++ evs).
      rewrite !records_read_app, (records_read_diagnostics evs D), records_read_copy.
      apply app_nil_r. }
    assert (records_written (success_trace (OpenedInput in_path in_mode aux :: evs)
                               out_path hdr infp) = pending infp) as Hwritten.
    { unfold success_trace.
      change (OpenedInput in_path in_mode aux :: evs)
        with ([OpenedInput in_path in_mode aux] ++ evs).
      rewrite !records_written_app, (records_written_diagnostics evs D),
        records_written_copy.
      apply app_nil_r. }
    split; [congruence|]. intros _.
    exists in_path, in_mode, aux, infp. repeat split; try done; [now left|].
    unfold success_trace.
    change (OpenedInput in_path in_mode aux :: evs)
      with ([OpenedInput in_path in_mode aux] ++ evs).
    rewrite !record_events_app, (record_events_diagnostics evs D), record_events_copy.
    apply app_nil_r.
Qed.

End Runs.

(** ** The empty header *)

(** C9. A header without text and without references makes the phase crash:
    the normaliser has nothing to do, the synthesiser is skipped because
    its guard asks for a reference, and the rewriter hands the null text to
    [strdup]; a run that opened an input with such a header ends there.
    On the headers a file can hold this is the only way the phase fails:
    with a text, or with at least one reference, it runs to its end. *)
Theorem empty_header_crashes (debug_level : Z) (h : bam_header_t) (tr : trace) :
  (text h = None /\ n_targets h = 0 ->
     normalize_table debug_level h tr = (tr, Done h) /\
     synthesize_text h tr = (tr, Done h) /\
     rewrite_text h tr = (tr, Crashed) /\
     prepare_header debug_level h tr = (tr, Crashed) /\
     forall (fs : samtools) (argv : list string) (infp : samfile_t),
       header infp = h ->
       open_input fs argv [] = (tr, Done (infp, debug_level)) ->
       run fs argv = (tr, Crashed)) /\
  (wf_header h = true -> text h <> None \/ 0 < n_targets h ->
     exists (h' : bam_header_t) (tr' : trace),
       prepare_header debug_level h tr = (tr', Done h')).
Proof.
  split.
  - intros [Ht Hn].
    assert (normalize_table debug_level h tr = (tr, Done h)) as Hnorm
      by (unfold normalize_table; now rewrite Hn).
    assert (synthesize_text h tr = (tr, Done h)) as Hsynth
      by (unfold synthesize_text; rewrite Hn, andb_false_r; reflexivity).
    assert (prepare_header debug_level h tr = (tr, Crashed)) as Hcrash
      by now apply (prepare_header_crash debug_level h h h tr tr tr).
    split; [exact Hnorm|]. split; [exact Hsynth|]. split; [|split; [exact Hcrash|]].
    + unfold rewrite_text. now rewrite Ht.
    + intros fs argv infp <- Hopen.
      destruct (open_input_cases fs _ _ _ _ Hopen)
        as [[E _] | (? & out_path & ? & ? & ? & ? & _ & _ & _ & E2 & _)]; [discriminate|].
      rewrite (run_after_open fs argv tr infp debug_level out_path Hopen E2).
      now rewrite Hcrash.
  - intros Hwf Hsome. now apply prepare_header_total.
Qed.

(** The theorem at the empty header, in a run that opens it, and at the
    header of two references. *)
Lemma empty_header_crashes_witness :
  prepare_header 0 example_empty [] = ([], Crashed) /\
  run empty_fs example_argv = ([OpenedInput "reads.sam" "r" None], Crashed) /\
  exists (h' : bam_header_t) (tr' : trace),
    prepare_header 0 example_no_text [] = (tr', Done h').
Proof.
  split; [|split].
  - now apply (empty_header_crashes 0 example_empty []).
  - destruct (empty_header_crashes 0 example_empty [OpenedInput "reads.sam" "r" None])
      as [Hcrash _].
    destruct Hcrash as (_ & _ & _ & _ & Hrun); [split; reflexivity|].
    now apply (Hrun empty_fs example_argv {| header := example_empty; pending := [] |}).
  - apply (empty_header_crashes 0 example_no_text []); [reflexivity|].
    right. reflexivity.
Defined.

(** The theorem at ten records of which three are unmapped: the run prints
    [Mapped reads: 7]. *)
Lemma mapped_reads_reported_witness :
  exists tr : trace,
    run example_fs example_argv = (tr, Exited 0) /\
    stdout_of tr = [line "Mapped reads: 7"].
Proof.
  destruct (run example_fs example_argv) as [tr o] eqn:Hrun.
  pose proof Hrun as Hrun'. vm_compute in Hrun'. injection Hrun' as Htr Ho.
  exists tr. rewrite <- Ho. split; [reflexivity|].
  destruct (mapped_reads_reported example_fs example_argv tr o Hrun)
    as (_ & Hok & _).
  destruct (Hok (eq_sym Ho)) as (in_path & in_mode & aux & infp & E1 & _ & Eopen & Hcount).
  injection E1 as <-. cbn in Eopen. injection Eopen as <-.
  rewrite Hcount; [reflexivity | vm_compute; reflexivity].
Defined.

(** The theorem at the same run: the ten records come out as they went in. *)
Lemma records_copied_in_order_witness :
  exists tr : trace,
    run example_fs example_argv = (tr, Exited 0) /\
    records_read tr = ten_records /\ records_written tr = ten_records.
Proof.
  destruct (run example_fs example_argv) as [tr o] eqn:Hrun.
  pose proof Hrun as Hrun'. vm_compute in Hrun'. injection Hrun' as Htr Ho.
  exists tr. rewrite <- Ho. split; [reflexivity|].
  destruct (records_copied_in_order example_fs example_argv tr o Hrun) as [_ Hok].
  destruct (Hok (eq_sym Ho))
    as (in_path & in_mode & aux & infp & E1 & _ & Eopen & Hread & Hwritten & _).
  injection E1 as <-. cbn in Eopen. injection Eopen as <-.
  split; [exact Hread | exact Hwritten].
Defined.

(** ** Where the table and the text part ways *)


(** ** The mode of the input container *)

(** C7, on the code.  The test of lines 31-32 looks at the first [.bam] of
    the path, up to case, and asks that the path ends right after it.  So a
    path that ends in [.bam] and has an earlier [.bam] is opened as text,
    with the reference hint kept; a path whose only [.bam] is its end is
    opened as binary and the hint is dropped; a path without [.bam] is
    opened as text. *)
Theorem first_bam_decides_mode (fs : samtools) :
  ends_with_nocase ".bam" "sample.bam.sorted.bam" = true /\
  select_in_mode "sample.bam.sorted.bam" (Some "ref.fa.fai"%string)
    = ("r"%string, Some "ref.fa.fai"%string) /\
  open_input fs ["sam_bam_verify"; "sample.bam.sorted.bam"; "out.bam"]%string []
    = match samopen_read fs "sample.bam.sorted.bam" "r" None with
      | Some infp => ([OpenedInput "sample.bam.sorted.bam" "r" None], Done (infp, 0))
      | None => ([Stderr (line "Failed to open input file sample.bam.sorted.bam")],
                 Exited 1)
      end /\
  ends_with_nocase ".bam" "reads.BAM" = true /\
  select_in_mode "reads.BAM" (Some "ref.fa.fai"%string) = ("rb"%string, None) /\
  ends_with_nocase ".bam" "reads.sam" = false /\
  select_in_mode "reads.sam" (Some "ref.fa.fai"%string)
    = ("r"%string, Some "ref.fa.fai"%string).
Proof.
  repeat split; try reflexivity.
  destruct fs as [faipath open_read open_write]. vm_compute.
  destruct (open_read _ _ _); reflexivity.
Qed.

(** ** Containers left open *)

Lemma open_handles_from_app (opened : list handle) (a b : trace) :
  open_handles_from opened (a ++ b) = open_handles_from (open_handles_from opened a) b.
Proof.
  revert opened; induction a as [|e a IH]; intros opened; [reflexivity|].
  destruct e; simpl; apply IH.
Qed.

Lemma open_handles_from_diagnostics (opened : list handle) (evs : trace) :
  diagnostics evs -> open_handles_from opened evs = opened.
Proof. induction 1 as [|e evs [s ->] _ IH]; [reflexivity | exact IH]. Qed.

Lemma open_handles_from_copy (opened : list handle) (records : list bam1_t) :
  open_handles_from opened (flat_map copy_events records) = opened.
Proof. induction records as [|b rest IH]; [reflexivity | exact IH]. Qed.

(** C8, on the code.  A run that succeeds closes both containers.  A run
    that opened the input and then fails, because the header phase
    crashes or the output cannot be opened, ends with the input container
    still open: lines 93-96 return without [samclose(infp)]. *)
Theorem input_left_open_on_failure (fs : samtools) (argv : list string)
    (tr : trace) (o : outcome unit) :
  run fs argv = (tr, o) ->
  (o = Exited 0 -> open_handles tr = []) /\
  (o <> Exited 0 ->
   (exists (path mode : string) (aux : option string), In (OpenedInput path mode aux) tr) ->
   open_handles tr = [Infp]).
Proof.
  intros Hrun. apply run_has_shape in Hrun.
  destruct Hrun as [tr D | ? ? ? ? ? evs _ _ _ D | ? ? ? ? evs _ _ D
                   | in_path in_mode out_path aux infp dbg hdr evs _ _ _ _ D _].
  - split; [discriminate|]. intros _ (path & mode & aux & Hin). exfalso.
    unfold diagnostics in D. rewrite Forall_forall in D.
    apply list_elem_of_In, D in Hin as [s Hs]. discriminate.
  - split; [discriminate|]. intros _ _. unfold open_handles. simpl.
    now apply open_handles_from_diagnostics.
  - split; [discriminate|]. intros _ _. unfold open_handles. simpl.
    now apply open_handles_from_diagnostics.
  - split; [|done]. intros _. unfold open_handles, success_trace.
    change (OpenedInput in_path in_mode aux :: evs)
      with ([OpenedInput in_path in_mode aux] ++ evs).
    rewrite !open_handles_from_app. simpl open_handles_from at 4.
    rewrite (open_handles_from_diagnostics _ evs D). simpl open_handles_from at 3.
    rewrite open_handles_from_copy. reflexivity.
Qed.

(** The theorem where [reads.sam] opens and the output cannot be created:
    the run returns 1 and the input is never closed. *)
Lemma input_left_open_on_failure_witness :
  exists tr : trace,
    run example_fs ["sam_bam_verify"; "reads.sam"; "/nonexistent/out.bam"]%string
      = (tr, Exited 1) /\
    In (OpenedInput "reads.sam" "r" None) tr /\
    ~ In (Closed Infp) tr /\
    open_handles tr = [Infp].
Proof.
  destruct (run example_fs ["sam_bam_verify"; "reads.sam"; "/nonexistent/out.bam"]%string)
    as [tr o] eqn:Hrun.
  pose proof Hrun as Hrun'. vm_compute in Hrun'. injection Hrun' as Htr Ho.
  exists tr. rewrite <- Ho. split; [reflexivity|].
  assert (In (OpenedInput "reads.sam" "r" None) tr) as Hin
    by (rewrite <- Htr; now left).
  split; [exact Hin|]. split.
  - rewrite <- Htr. intros [H|[H|[]]]; discriminate H.
  - apply (input_left_open_on_failure example_fs _ tr o Hrun).
    + rewrite <- Ho. discriminate.
    + now exists "reads.sam"%string, "r"%string, None.
Defined.

(** ** The mode test in general *)

Section CaseFacts.

Local Open Scope nat_scope.

Lemma tolower_zero (c : ascii) : char_code (tolower c) = 0%Z -> c = zero.
Proof.
  destruct c as [[] [] [] [] [] [] [] []]; vm_compute; intros H;
    first [reflexivity | discriminate H].
Qed.

Lemma char_code_inj (a b : ascii) : char_code a = char_code b -> a = b.
Proof.
  unfold char_code. intros H. apply Nat2Z.inj in H.
  rewrite <- (ascii_nat_embedding a), <- (ascii_nat_embedding b). now rewrite H.
Qed.

Lemma c_string_ptr_add (s : string) (n : nat) :
  c_string s = true -> c_string (ptr_add s n) = true.
Proof.
  revert s; induction n as [|n IH]; intros [|c s]; simpl; try done.
  intros H. apply andb_true_iff in H as [_ H]. now apply IH.
Qed.

Lemma strcasecmp_zero_length (s1 s2 : string) :
  c_string s1 = true -> c_string s2 = true ->
  strcasecmp s1 s2 = 0%Z -> String.length s1 = String.length s2.
Proof.
  revert s2; induction s1 as [|c1 r1 IH]; intros [|c2 r2]; simpl; try done.
  - intros _ H2 E. apply andb_true_iff in H2 as [H2 _].
    assert (c2 = zero) as -> by (apply tolower_zero; lia). discriminate.
  - intros H1 _ E. apply andb_true_iff in H1 as [H1 _].
    assert (c1 = zero) as -> by (apply tolower_zero; lia). discriminate.
  - intros H1 H2 E. apply andb_true_iff in H1 as [_ H1], H2 as [_ H2].
    destruct (Ascii.eqb_spec (tolower c1) (tolower c2)) as [_|Hne].
    + f_equal. now apply IH.
    + destruct Hne. apply char_code_inj. lia.
Qed.

Lemma caseprefix_same_length (needle s : string) :
  caseprefix needle s = true -> String.length s = String.length needle ->
  strcasecmp s needle = 0%Z.
Proof.
  revert s; induction needle as [|a needle IH]; intros [|b s]; simpl; try done.
  intros H Hlen. apply andb_true_iff in H as [Hab H].
  apply Ascii.eqb_eq in Hab. rewrite Hab, Ascii.eqb_refl. apply IH; [done|lia].
Qed.

Lemma caseprefix_length (needle s : string) :
  caseprefix needle s = true -> String.length needle <= String.length s.
Proof.
  revert s; induction needle as [|a needle IH]; intros [|b s]; simpl; try lia; try done.
  intros H. apply andb_true_iff in H as [_ H]. apply IH in H. lia.
Qed.

(** A hit of [strcasestr] is an offset at which the needle matches up to
    case. *)
Lemma strcasestr_hit (haystack needle : string) (p : nat) :
  strcasestr haystack needle = Some p ->
  caseprefix needle (ptr_add haystack p) = true /\ p <= String.length haystack.
Proof.
  revert p; induction haystack as [|c rest IH]; intros p; cbn [strcasestr].
  - destruct (caseprefix needle EmptyString) eqn:E; [|done].
    intros [= <-]. split; [exact E | simpl; lia].
  - destruct (caseprefix needle (String c rest)) eqn:E.
    + intros [= <-]. split; [exact E | simpl; lia].
    + destruct (strcasestr rest needle) as [q|] eqn:Eq; [|done].
      intros [= <-]. destruct (IH q eq_refl) as [H1 H2]. split; [exact H1 | simpl; lia].
Qed.

End CaseFacts.

(** X1. The test of lines 31-32 on any path: the mode is binary, and the hint
    dropped, exactly when the first [.bam] of the path, up to case, is its
    last four characters; otherwise the mode is textual and the hint kept.
    Binary mode is only chosen for paths that end in [.bam] up to case. *)
Theorem binary_mode_when_first_bam_is_suffix (path : string) (aux : option string) :
  c_string path = true ->
  (select_in_mode path aux = ("rb"%string, None) \/
   select_in_mode path aux = ("r"%string, aux)) /\
  (select_in_mode path aux = ("rb"%string, None) <->
   (4 <= String.length path)%nat /\
   strcasestr path ".bam" = Some (String.length path - 4)%nat) /\
  (select_in_mode path aux = ("rb"%string, None) ->
   ends_with_nocase ".bam" path = true).
Proof.
  intros Hc. unfold select_in_mode, strcat, ends_with_nocase.
  destruct (strcasestr path ".bam") as [p|] eqn:Ehit.
  - destruct (strcasestr_hit _ _ _ Ehit) as [Hpre Hp].
    pose proof (caseprefix_length _ _ Hpre) as Hlen4.
    rewrite length_ptr_add in Hlen4. simpl in Hlen4.
    destruct (Z.eqb_spec (strcasecmp (ptr_add path p) ".bam") 0) as [E0|Hne].
    + apply strcasecmp_zero_length in E0 as Hlen;
        [|now apply c_string_ptr_add|reflexivity].
      rewrite length_ptr_add in Hlen. simpl in Hlen.
      assert (p = String.length path - 4)%nat as -> by lia.
      split; [now left|]. split; [split; [intros _; split; [lia|done] | done]|].
      intros _. simpl String.length. rewrite E0.
      apply andb_true_iff. split; [apply Nat.leb_le; lia | reflexivity].
    + split; [now right|]. split; [|discriminate].
      split; [discriminate|]. intros [H4 [= ->]]. destruct Hne.
      apply caseprefix_same_length; [exact Hpre|].
      rewrite length_ptr_add. simpl. lia.
  - split; [now right|]. split; [|discriminate].
    split; [discriminate|]. intros [_ H]. discriminate H.
Qed.

(** The theorem at [reads.BAM]. *)
Lemma binary_mode_when_first_bam_is_suffix_witness :
  select_in_mode "reads.BAM" (Some "ref.fa.fai"%string) = ("rb"%string, None) /\
  ends_with_nocase ".bam" "reads.BAM" = true.
Proof.
  destruct (binary_mode_when_first_bam_is_suffix "reads.BAM" (Some "ref.fa.fai"%string)
              eq_refl) as (_ & Hiff & Hends).
  assert (select_in_mode "reads.BAM" (Some "ref.fa.fai"%string) = ("rb"%string, None))
    as Hmode by (apply Hiff; split; [simpl; lia | reflexivity]).
  split; [exact Hmode | exact (Hends Hmode)].
Defined.

(** ** Exit statuses *)

Lemma strcmp_same (s : string) : strcmp s s = 0.
Proof. induction s as [|c s IH]; simpl; [reflexivity|]. now rewrite Ascii.eqb_refl. Qed.

(** X2. With fewer than two arguments after the program name the run prints the
    usage text and returns 1; with the input path equal to the output path
    it prints the message, then the usage text, and returns 1.  Nothing is
    opened in either case. *)
Theorem usage_errors (fs : samtools) (argv : list string) :
  ((length argv < 3)%nat -> run fs argv = (usage_text, Exited 1)) /\
  (forall path : string,
      argv !! 1%nat = Some path -> argv !! 2%nat = Some path ->
      run fs argv =
        (Stderr (line "Can't read and write the same file.") :: usage_text, Exited 1)).
Proof.
  split.
  - intros Hargc. unfold run, main. apply bind_exited. unfold open_input.
    destruct (Z.ltb_spec (Z.of_nat (length argv)) 3) as [_|Hge]; [reflexivity|lia].
  - intros path H1 H2. unfold run, main. apply bind_exited. unfold open_input.
    pose proof (lookup_lt_Some _ _ _ H2) as Hlen.
    destruct (Z.ltb_spec (Z.of_nat (length argv)) 3) as [Hlt|_]; [lia|].
    rewrite (bind_done _ _ _ _ _ (load_some argv 1 path [] H1)).
    rewrite (bind_done _ _ _ _ _ (load_some argv 2 path [] H2)).
    now rewrite strcmp_same.
Qed.

(** The theorem at a call without an output path and at a call that names
    one file twice. *)
Lemma usage_errors_witness :
  run example_fs ["sam_bam_verify"; "reads.sam"]%string = (usage_text, Exited 1) /\
  run example_fs ["sam_bam_verify"; "reads.sam"; "reads.sam"]%string =
    (Stderr (line "Can't read and write the same file.") :: usage_text, Exited 1).
Proof.
  split.
  - apply (usage_errors example_fs ["sam_bam_verify"; "reads.sam"]%string).
    simpl. lia.
  - apply (proj2 (usage_errors example_fs
                     ["sam_bam_verify"; "reads.sam"; "reads.sam"]%string)
             "reads.sam"%string); reflexivity.
Defined.

(** X3. A run ends with status 0 or 1, or crashes.  A crash happens in the
    header phase, after the input was opened and before anything but
    diagnostics was written; when the header of the container that was
    opened is one a file can hold, it happens only if that header has
    neither text nor references. *)
Theorem run_outcomes (fs : samtools) (argv : list string) (tr : trace)
    (o : outcome unit) :
  run fs argv = (tr, o) ->
  o = Exited 0 \/ o = Exited 1 \/
  (o = Crashed /\
   exists (in_path in_mode : string) (aux : option string) (infp : samfile_t)
          (debug_level : Z) (evs : trace),
     argv !! 1%nat = Some in_path /\
     tr = OpenedInput in_path in_mode aux :: evs /\ diagnostics evs /\
     samopen_read fs in_path in_mode aux = Some infp /\
     prepare_header debug_level (header infp) [OpenedInput in_path in_mode aux] =
       (tr, Crashed) /\
     (wf_header (header infp) = true ->
      text (header infp) = None /\ n_targets (header infp) = 0)).
Proof.
  intros Hrun. apply run_has_shape in Hrun.
  destruct Hrun as [| in_path in_mode aux infp dbg evs E1 Eopen Hprep D | |]; auto.
  right. right. split; [reflexivity|].
  exists in_path, in_mode, aux, infp, dbg, evs.
  split; [exact E1|]. split; [reflexivity|]. split; [exact D|].
  split; [exact Eopen|]. split; [exact Hprep|].
  intros Hwf.
  assert (~ (text (header infp) <> None \/ 0 < n_targets (header infp))) as Hnot.
  { intros Hsome.
    destruct (prepare_header_total dbg (header infp)
                [OpenedInput in_path in_mode aux] Hwf Hsome) as (h' & tr' & Hdone).
    congruence. }
  destruct (wf_header_unfold _ Hwf) as (Hn & _). split.
  - destruct (text (header infp)); [|reflexivity]. destruct Hnot. now left.
  - destruct (Z.eq_dec (n_targets (header infp)) 0) as [|Hne]; [done|].
    destruct Hnot. right. lia.
Qed.

(** The theorem at the run on the file with the empty header: the crash
    follows the opening of the input at once. *)
Lemma run_outcomes_witness :
  run empty_fs example_argv = ([OpenedInput "reads.sam" "r" None], Crashed) /\
  exists (infp : samfile_t),
    samopen_read empty_fs "reads.sam" "r" None = Some infp /\
    text (header infp) = None /\ n_targets (header infp) = 0.
Proof.
  destruct (run empty_fs example_argv) as [tr o] eqn:Hrun.
  pose proof Hrun as Hrun'. vm_compute in Hrun'. injection Hrun' as Htr Ho.
  destruct (run_outcomes empty_fs example_argv tr o Hrun)
    as [E|[E|(_ & p & m & a & infp & d & evs & E1 & Etr & _ & Eopen & _ & Hempty)]];
    [exfalso; congruence..|].
  rewrite <- Htr, <- Ho. split; [reflexivity|].
  rewrite <- Htr in Etr. injection Etr as <- <- <- _.
  exists infp. split; [exact Eopen|].
  cbn in Eopen. injection Eopen as <-. now apply Hempty.
Defined.

(** * Further properties of the program *)

(** ** What the header phase writes on the diagnostic stream *)

Lemma verbose_decide (debug_level : Z) (A : Type) (x y : A) :
  (if decide (Z.land debug_level 1 <> 0) then x else y) =
  (if verbose debug_level then x else y).
Proof.
  unfold verbose. destruct (decide (Z.land debug_level 1 <> 0)) as [H|H];
    destruct (Z.eqb_spec (Z.land debug_level 1) 0); simpl;
    first [reflexivity | contradiction].
Qed.

Lemma strip_target_trace (debug_level : Z) (i : nat) (h : bam_header_t)
    (tr : trace) (name : string) (len : Z) :
  target_name h !! i = Some name -> target_len h !! i = Some len ->
  strip_target debug_level i h tr =
    (tr ++ (if verbose debug_level && renamed (name, len)
            then [rename_line (name, len)] else []),
     Done (if strips name len
           then set_target i (ptr_add name 3)
                  (uint32 (Z.of_nat (String.length (ptr_add name 3)))) h
           else h)).
Proof.
  intros Hn Hl. unfold strip_target, renamed, rename_line, strips. cbn [fst snd].
  rewrite (bind_done _ _ _ _ _ (load_some _ _ _ tr Hn)).
  rewrite verbose_decide, <- ptr_add_substring.
  destruct (decide (strstr name "chr" = Some 0%nat)) as [Hp|Hp].
  - apply strstr_here in Hp as ->. cbn [andb]. unfold strlen.
    destruct (3 <? String.length name)%nat; cbn [andb];
      [|rewrite andb_false_r, app_nil_r; reflexivity].
    rewrite (bind_done _ _ _ _ _ (load_some _ _ _ tr Hl)).
    destruct (3 <? len); [|rewrite andb_false_r, app_nil_r; reflexivity].
    rewrite andb_true_r. unfold strdup.
    destruct (verbose debug_level); [reflexivity|].
    unfold bind, ret. now rewrite app_nil_r.
  - rewrite strstr_here in Hp. apply not_true_is_false in Hp as ->.
    cbn [andb]. rewrite andb_false_r, app_nil_r. reflexivity.
Qed.

Lemma entries_lookup (h : bam_header_t) (i : nat) (name : string) (len : Z) :
  target_name h !! i = Some name -> target_len h !! i = Some len ->
  entries h !! i = Some (name, len).
Proof.
  intros Hn Hl. unfold entries. rewrite lookup_zip_with, Hn, Hl. reflexivity.
Qed.

Lemma entries_drop_set_target (h : bam_header_t) (i n : nat) (name : string) (len : Z) :
  (i < n)%nat -> drop n (entries (set_target i name len h)) = drop n (entries h).
Proof.
  intros Hi. unfold entries. cbn [target_name target_len set_target].
  rewrite !zip_with_drop, !drop_insert_lt by lia. reflexivity.
Qed.

(** The lines of the normaliser, round by round. *)
Lemma normalize_loop_trace (debug_level : Z) (count : nat) :
  forall (from : nat) (h : bam_header_t) (tr : trace),
    (from + count <= length (target_name h))%nat ->
    (from + count <= length (target_len h))%nat ->
    fst (for_loop from count (strip_target debug_level) h tr) =
      tr ++ (if verbose debug_level
             then map rename_line (List.filter renamed (take count (drop from (entries h))))
             else []).
Proof.
  induction count as [|count IH]; intros from h tr Hn Hl.
  - simpl. destruct (verbose debug_level); now rewrite app_nil_r.
  - destruct (lookup_lt_is_Some_2 (target_name h) from) as [name En]; [lia|].
    destruct (lookup_lt_is_Some_2 (target_len h) from) as [len El]; [lia|].
    cbn [for_loop].
    rewrite (bind_done _ _ _ _ _ (strip_target_trace debug_level from h tr name len En El)).
    rewrite (drop_S _ _ _ (entries_lookup h from name len En El)).
    cbn [take List.filter]. fold (renamed (name, len)).
    set (h1 := if strips name len then _ else h).
    assert (drop (S from) (entries h1) = drop (S from) (entries h)) as Hdrop
      by (subst h1; destruct (strips name len);
          [apply entries_drop_set_target; lia | reflexivity]).
    assert (length (target_name h1) = length (target_name h)) as Hn1
      by (subst h1; destruct (strips name len); simpl; [apply length_insert|done]).
    assert (length (target_len h1) = length (target_len h)) as Hl1
      by (subst h1; destruct (strips name len); simpl; [apply length_insert|done]).
    rewrite IH, Hdrop by lia. rewrite <- app_assoc. f_equal.
    destruct (verbose debug_level); [|reflexivity].
    cbn [andb]. destruct (renamed (name, len)); reflexivity.
Qed.

(** X4. On a header a file can hold, the diagnostics of the header phase are,
    in this order: in verbose mode one line per renamed entry, in table
    order, with the old name and the new one; the notice that the text is
    regenerated, when it is; and in verbose mode the final text after
    [New header:].  Without verbose mode the notice is all the phase can
    write. *)
Theorem header_phase_diagnostics (debug_level : Z) (h h' : bam_header_t)
    (tr tr' : trace) :
  wf_header h = true ->
  prepare_header debug_level h tr = (tr', Done h') ->
  tr' = tr
        ++ (if verbose debug_level
            then map rename_line (List.filter renamed (entries h)) else [])
        ++ (if text_missing h && (0 <? n_targets h) then [regenerating_notice] else [])
        ++ (if verbose debug_level
            then [Stderr (line "New header:" ++ default EmptyString (text h'))]
            else []).
Proof.
  intros Hwf Hrun. destruct (wf_header_lengths h Hwf) as [Hn Hl].
  destruct (normalize_loop debug_level (Z.to_nat (n_targets h)) 0 h tr)
    as (h1 & tr1 & Hnorm & _); [lia..|].
  pose proof (normalize_loop_trace debug_level (Z.to_nat (n_targets h)) 0 h tr) as Htr1.
  specialize (Htr1 ltac:(lia) ltac:(lia)).
  rewrite Hnorm in Htr1. cbn [fst] in Htr1.
  assert (take (Z.to_nat (n_targets h)) (entries h) = entries h) as Hall.
  { apply take_ge. unfold entries. rewrite length_zip_with. lia. }
  rewrite drop_0, Hall in Htr1.
  fold (normalize_table debug_level h) in Hnorm.
  destruct (normalize_table_wf _ _ _ _ _ Hwf Hnorm) as [Hwf1 [A1 A2 _ _ _ _ _]].
  pose proof (synthesize_text_run h1 tr1 Hwf1) as Hsynth.
  assert (text_missing h1 = text_missing h) as Hmiss
    by (unfold text_missing; now rewrite A2).
  rewrite Hmiss, A1 in Hsynth.
  unfold prepare_header in Hrun.
  rewrite (bind_done _ _ _ _ _ Hnorm) in Hrun.
  destruct (text_missing h && (0 <? n_targets h)).
  - rewrite (bind_done _ _ _ _ _ Hsynth) in Hrun.
    unfold rewrite_text in Hrun. cbn [text set_text] in Hrun.
    unfold bind at 1, ret at 1 in Hrun. rewrite verbose_decide in Hrun.
    destruct (verbose debug_level); injection Hrun as <- <-; subst tr1;
      rewrite <- ?app_assoc; reflexivity.
  - rewrite (bind_done _ _ _ _ _ Hsynth) in Hrun.
    unfold rewrite_text in Hrun. destruct (text h1) as [t|]; [|discriminate].
    unfold bind at 1, ret at 1 in Hrun. rewrite verbose_decide in Hrun.
    destruct (verbose debug_level); injection Hrun as <- <-; subst tr1;
      rewrite <- ?app_assoc, ?app_nil_r; reflexivity.
Qed.

(** The theorem on [example_header] in verbose mode: two renames, no
    regeneration, the new header. *)
Lemma header_phase_diagnostics_witness :
  exists (h' : bam_header_t) (tr' : trace),
    prepare_header 1 example_header [] = (tr', Done h') /\
    tr' = [Stderr (line "Removing 'chr' prefix. chr1 becomes 1");
           Stderr (line "Removing 'chr' prefix. chrX becomes X");
           Stderr (line "New header:" ++ sq_line "1" 248956422 ++ sq_line "X" 156040895)].
Proof.
  destruct (prepare_header 1 example_header []) as [tr' o] eqn:Hrun.
  pose proof Hrun as Hrun'. vm_compute in Hrun'. injection Hrun' as _ Ho.
  subst o. eexists _, tr'. split; [reflexivity|].
  rewrite (header_phase_diagnostics 1 example_header _ [] tr' eq_refl Hrun).
  reflexivity.
Defined.

(** ** The verbose flag changes the diagnostics and nothing else *)

Lemma same_result_ret {A} (a : A) : same_result (ret a) (ret a).
Proof. intros tr tr'. reflexivity. Qed.

Lemma same_result_crash {A} : same_result (@crash A) crash.
Proof. intros tr tr'. reflexivity. Qed.

Lemma same_result_load {A} (a : list A) (i : nat) : same_result (load a i) (load a i).
Proof. intros tr tr'. unfold load. now destruct (a !! i). Qed.

Lemma same_result_bind {A B} (m m' : prog A) (k k' : A -> prog B) :
  same_result m m' -> (forall a, same_result (k a) (k' a)) ->
  same_result (bind m k) (bind m' k').
Proof.
  intros Hm Hk tr tr'. unfold bind. specialize (Hm tr tr').
  destruct (m tr) as [tr1 [a|status|]], (m' tr') as [tr1' [a'|status'|]];
    simpl in Hm; try discriminate; try injection Hm as <-; try reflexivity.
  apply Hk.
Qed.

Lemma same_result_for_loop {A} (body body' : nat -> A -> prog A) (count : nat) :
  (forall i a, same_result (body i a) (body' i a)) ->
  forall from a, same_result (for_loop from count body a) (for_loop from count body' a).
Proof.
  intros Hbody. induction count as [|count IH]; intros from a; simpl.
  - apply same_result_ret.
  - apply same_result_bind; [apply Hbody | intros a'; apply IH].
Qed.

Lemma same_result_note (b b' : bool) (s s' : string) :
  same_result (if b then fprintf_stderr s else ret tt)
              (if b' then fprintf_stderr s' else ret tt).
Proof. intros tr tr'. now destruct b, b'. Qed.

Lemma same_result_strip_target (d d' : Z) (i : nat) (h : bam_header_t) :
  same_result (strip_target d i h) (strip_target d' i h).
Proof.
  unfold strip_target.
  apply same_result_bind; [apply same_result_load | intros target].
  destruct (decide (strstr target "chr" = Some 0%nat)); [|apply same_result_ret].
  destruct (3 <? strlen target)%nat; [|apply same_result_ret].
  apply same_result_bind; [apply same_result_load | intros len].
  destruct (3 <? len); [|apply same_result_ret].
  cbv zeta. apply same_result_bind; [|intros _; apply same_result_ret].
  rewrite !verbose_decide. apply same_result_note.
Qed.

Lemma same_result_regenerate_line (i : nat) (h : bam_header_t) :
  same_result (regenerate_line i h) (regenerate_line i h).
Proof.
  unfold regenerate_line.
  apply same_result_bind; [apply same_result_load | intros name].
  apply same_result_bind; [apply same_result_load | intros len].
  cbv zeta. destruct (text h); [apply same_result_ret | apply same_result_crash].
Qed.

Lemma same_result_synthesize_text (h : bam_header_t) :
  same_result (synthesize_text h) (synthesize_text h).
Proof.
  unfold synthesize_text.
  destruct (text_missing h && (0 <? n_targets h)); [|apply same_result_ret].
  cbv zeta. apply same_result_bind; [intros tr tr'; reflexivity | intros _].
  apply same_result_for_loop. intros i a. apply same_result_regenerate_line.
Qed.

Lemma same_result_rewrite_text (h : bam_header_t) :
  same_result (rewrite_text h) (rewrite_text h).
Proof.
  unfold rewrite_text. destruct (text h); [apply same_result_ret | apply same_result_crash].
Qed.

(** The header phase gives the same header, or crashes alike, whatever the
    debug level. *)
Lemma same_result_prepare_header (d d' : Z) (h : bam_header_t) :
  same_result (prepare_header d h) (prepare_header d' h).
Proof.
  unfold prepare_header.
  apply same_result_bind.
  { unfold normalize_table. apply same_result_for_loop. intros i a.
    apply same_result_strip_target. }
  intros h1. apply same_result_bind; [apply same_result_synthesize_text | intros h2].
  apply same_result_bind; [apply same_result_rewrite_text | intros h3].
  apply same_result_bind; [|intros _; apply same_result_ret].
  rewrite !verbose_decide. apply same_result_note.
Qed.

Lemma observable_app (a b : trace) : observable (a ++ b) = observable a ++ observable b.
Proof. apply List.filter_app. Qed.

Lemma observable_diagnostics (evs : trace) : diagnostics evs -> observable evs = [].
Proof. induction 1 as [|e evs [s ->] _ IH]; [reflexivity | exact IH]. Qed.

(** With [-v] added at the end of a complete argument list, the input is
    opened by the same call; only the debug level may differ. *)
Lemma open_input_verbose (fs : samtools) (argv : list string) :
  (3 <= length argv)%nat ->
  (exists tr0 : trace,
      open_input fs argv [] = (tr0, Exited 1) /\
      open_input fs (argv ++ ["-v"%string]) [] = (tr0, Exited 1)) \/
  (exists (tr0 : trace) (infp : samfile_t) (d : Z),
      open_input fs argv [] = (tr0, Done (infp, d)) /\
      open_input fs (argv ++ ["-v"%string]) [] = (tr0, Done (infp, 1))).
Proof.
  intros Hargc.
  destruct argv as [|a0 [|in_path [|out_path rest]]]; simpl in Hargc; try lia.
  set (argv := a0 :: in_path :: out_path :: rest) in *.
  set (argv' := argv ++ ["-v"%string]).
  assert (length argv = S (S (S (length rest)))) as Hlen by reflexivity.
  assert (length argv' = S (length argv)) as Hlen'
    by (subst argv'; rewrite length_app; simpl; lia).
  unfold open_input.
  destruct (Z.ltb_spec (Z.of_nat (length argv)) 3) as [|_]; [lia|].
  destruct (Z.ltb_spec (Z.of_nat (length argv')) 3) as [|_]; [lia|].
  rewrite (bind_done _ _ _ _ _ (load_some argv 1 in_path [] eq_refl)).
  rewrite (bind_done _ _ _ _ _ (load_some argv 2 out_path [] eq_refl)).
  rewrite (bind_done _ _ _ _ _ (load_some argv' 1 in_path [] eq_refl)).
  rewrite (bind_done _ _ _ _ _ (load_some argv' 2 out_path [] eq_refl)).
  destruct (strcmp in_path out_path =? 0); [left; by eexists|].
  assert (exists aux0,
            (if 4 <=? Z.of_nat (length argv)
             then hint <- load argv 3;;
                  if strcmp hint "-v" =? 0 then ret None
                  else ret (samfaipath fs (strdup hint))
             else ret None) [] = ([], Done aux0) /\
            (if 4 <=? Z.of_nat (length argv')
             then hint <- load argv' 3;;
                  if strcmp hint "-v" =? 0 then ret None
                  else ret (samfaipath fs (strdup hint))
             else ret None) [] = ([], Done aux0)) as (aux0 & Eaux & Eaux').
  { destruct (Z.leb_spec 4 (Z.of_nat (length argv'))) as [_|]; [|lia].
    destruct rest as [|hint rest].
    - exists None. split; [reflexivity|].
      rewrite (bind_done _ _ _ _ _ (load_some argv' 3 "-v"%string [] eq_refl)).
      reflexivity.
    - destruct (Z.leb_spec 4 (Z.of_nat (length argv))) as [_|]; [|simpl in *; lia].
      rewrite (bind_done _ _ _ _ _ (load_some argv 3 hint [] eq_refl)).
      rewrite (bind_done _ _ _ _ _ (load_some argv' 3 hint [] eq_refl)).
      destruct (strcmp hint "-v" =? 0); by eexists. }
  rewrite (bind_done _ _ _ _ _ Eaux), (bind_done _ _ _ _ _ Eaux').
  destruct (lookup_lt_is_Some_2 argv (Z.to_nat (Z.of_nat (length argv) - 1)))
    as [last Elast]; [lia|].
  rewrite (bind_done _ _ _ _ _ (load_some argv _ last [] Elast)).
  assert (argv' !! Z.to_nat (Z.of_nat (length argv') - 1) = Some "-v"%string) as Elast'.
  { replace (Z.to_nat (Z.of_nat (length argv') - 1)) with (length argv) by lia.
    subst argv'. now apply list_lookup_middle. }
  rewrite (bind_done _ _ _ _ _ (load_some argv' _ _ [] Elast')).
  destruct (select_in_mode in_path aux0) as [in_mode aux].
  destruct (samopen_read fs in_path in_mode aux) as [infp|].
  - right. by eexists _, infp, _.
  - left. by eexists.
Qed.

(** X5. Adding [-v] at the end of a complete argument list changes what is
    written on the diagnostic stream and nothing else: the exit status (or
    the crash) is the same, and so are the containers opened, the header
    handed to the output, the records read and written, the line on
    standard output and the closings, in the same order. *)
Theorem verbose_only_adds_diagnostics (fs : samtools) (argv : list string)
    (tr tr' : trace) (o o' : outcome unit) :
  (3 <= length argv)%nat ->
  run fs argv = (tr, o) ->
  run fs (argv ++ ["-v"%string]) = (tr', o') ->
  o' = o /\ observable tr' = observable tr.
Proof.
  intros Hargc Hrun Hrun'.
  destruct (open_input_verbose fs argv Hargc)
    as [(tr0 & Hopen & Hopen') | (tr0 & infp & d & Hopen & Hopen')].
  - unfold run, main in Hrun, Hrun'.
    rewrite (bind_exited _ _ _ _ _ Hopen) in Hrun.
    rewrite (bind_exited _ _ _ _ _ Hopen') in Hrun'.
    injection Hrun as <- <-. injection Hrun' as <- <-. split; reflexivity.
  - destruct (lookup_lt_is_Some_2 argv 2) as [out_path Eout]; [lia|].
    assert ((argv ++ ["-v"%string]) !! 2%nat = Some out_path) as Eout'
      by (rewrite lookup_app_l; [exact Eout | lia]).
    rewrite (run_after_open fs argv tr0 infp d out_path Hopen Eout) in Hrun.
    rewrite (run_after_open fs _ tr0 infp 1 out_path Hopen' Eout') in Hrun'.
    pose proof (same_result_prepare_header d 1 (header infp) tr0 tr0) as Hsame.
    destruct (prepare_header d (header infp) tr0) as [tr1 o1] eqn:Hprep.
    destruct (prepare_header 1 (header infp) tr0) as [tr1' o1'] eqn:Hprep'.
    destruct (quiet_prepare_header _ _ _ _ _ Hprep) as [(evs & -> & D) _].
    destruct (quiet_prepare_header _ _ _ _ _ Hprep') as [(evs' & -> & D') _].
    simpl in Hsame. subst o1'.
    assert (observable (tr0 ++ evs') = observable (tr0 ++ evs)) as Hobs
      by (rewrite !observable_app, (observable_diagnostics _ D),
            (observable_diagnostics _ D'); reflexivity).
    destruct o1 as [hdr|status|].
    + destruct (samopen_write fs out_path hdr);
        injection Hrun as <- <-; injection Hrun' as <- <-; split; try reflexivity.
      * unfold success_trace.
        rewrite !observable_app, (observable_diagnostics _ D),
          (observable_diagnostics _ D').
        reflexivity.
      * rewrite !observable_app, (observable_diagnostics _ D),
          (observable_diagnostics _ D').
        reflexivity.
    + injection Hrun as <- <-; injection Hrun' as <- <-. split; [reflexivity|exact Hobs].
    + injection Hrun as <- <-; injection Hrun' as <- <-. split; [reflexivity|exact Hobs].
Qed.

(** The theorem at the run on [reads.sam]: with [-v] it ends with status 0
    too and shows the same events apart from diagnostics. *)
Lemma verbose_only_adds_diagnostics_witness :
  exists tr tr' : trace,
    run example_fs example_argv = (tr, Exited 0) /\
    run example_fs (example_argv ++ ["-v"%string]) = (tr', Exited 0) /\
    observable tr' = observable tr.
Proof.
  destruct (run example_fs example_argv) as [tr o] eqn:Hrun.
  destruct (run example_fs (example_argv ++ ["-v"%string])) as [tr' o'] eqn:Hrun'.
  destruct (verbose_only_adds_diagnostics example_fs example_argv tr tr' o o'
              ltac:(simpl; lia) Hrun Hrun') as [Ho Hobs].
  pose proof Hrun as Hrun2. vm_compute in Hrun2. injection Hrun2 as _ Ho2.
  subst o'. subst o. exists tr, tr'. repeat split. exact Hobs.
Defined.

(** ** Opening the input *)

Lemma lookup_pred_last (l : list string) (d : string) :
  l <> [] -> l !! Nat.pred (length l) = Some (List.last l d).
Proof.
  induction l as [|x l IH]; [done|]. intros _.
  destruct l as [|y l]; [reflexivity|].
  change (Nat.pred (length (x :: y :: l))) with (S (Nat.pred (length (y :: l)))).
  cbn [lookup list_lookup]. apply IH. discriminate.
Qed.

(** [open_input] on an argument list with both paths, in one equation. *)
Lemma open_input_eq (fs : samtools) (a0 in_path out_path : string)
    (rest : list string) (tr : trace) :
  let argv := a0 :: in_path :: out_path :: rest in
  open_input fs argv tr =
    if strcmp in_path out_path =? 0 then
      (tr ++ Stderr (line "Can't read and write the same file.") :: usage_text, Exited 1)
    else
      let mode_aux := select_in_mode in_path (reference_hint fs rest) in
      match samopen_read fs in_path mode_aux.1 mode_aux.2 with
      | None =>
          (tr ++ [Stderr (line ("Failed to open input file " ++ in_path))], Exited 1)
      | Some infp =>
          (tr ++ [OpenedInput in_path mode_aux.1 mode_aux.2],
           Done (infp, if strcmp (List.last argv EmptyString) "-v" =? 0 then 1 else 0))
      end.
Proof.
  intros argv. unfold open_input.
  assert (length argv = S (S (S (length rest)))) as Hargc by reflexivity.
  destruct (Z.ltb_spec (Z.of_nat (length argv)) 3) as [|_]; [lia|].
  rewrite (bind_done _ _ _ _ _ (load_some argv 1 in_path tr eq_refl)).
  rewrite (bind_done _ _ _ _ _ (load_some argv 2 out_path tr eq_refl)).
  destruct (strcmp in_path out_path =? 0).
  { unfold bind, fprintf_stderr, emit, show_usage, exit_with, usage_text. simpl.
    now rewrite <- !app_assoc. }
  assert ((if 4 <=? Z.of_nat (length argv)
           then hint <- load argv 3;;
                if strcmp hint "-v" =? 0 then ret None
                else ret (samfaipath fs (strdup hint))
           else ret None) tr = (tr, Done (reference_hint fs rest))) as Eaux.
  { destruct rest as [|hint rest]; [reflexivity|].
    destruct (Z.leb_spec 4 (Z.of_nat (length argv))) as [_|]; [|simpl in *; lia].
    rewrite (bind_done _ _ _ _ _ (load_some argv 3 hint tr eq_refl)).
    simpl. now destruct (strcmp hint "-v" =? 0). }
  rewrite (bind_done _ _ _ _ _ Eaux).
  assert (argv !! Z.to_nat (Z.of_nat (length argv) - 1)
          = Some (List.last argv EmptyString)) as Elast.
  { replace (Z.to_nat (Z.of_nat (length argv) - 1)) with (Nat.pred (length argv)) by lia.
    now apply lookup_pred_last. }
  rewrite (bind_done _ _ _ _ _ (load_some argv _ _ tr Elast)).
  destruct (select_in_mode in_path (reference_hint fs rest)) as [in_mode aux].
  cbn [fst snd]. now destruct (samopen_read fs in_path in_mode aux).
Qed.

Lemma strcmp_zero_eq (s1 s2 : string) :
  c_string s1 = true -> c_string s2 = true -> strcmp s1 s2 = 0 -> s1 = s2.
Proof.
  assert (forall c, char_code c = 0 -> c = zero) as Hzero.
  { intros c Hc. apply char_code_inj. rewrite Hc. reflexivity. }
  revert s2; induction s1 as [|c1 r1 IH]; intros [|c2 r2]; simpl; try done.
  - intros _ H2 E. apply andb_true_iff in H2 as [H2 _].
    rewrite (Hzero c2) in H2 by lia. discriminate.
  - intros H1 _ E. apply andb_true_iff in H1 as [H1 _].
    rewrite (Hzero c1) in H1 by lia. discriminate.
  - intros H1 H2 E. apply andb_true_iff in H1 as [_ H1], H2 as [_ H2].
    destruct (Ascii.eqb_spec c1 c2) as [->|Hne].
    + f_equal. now apply IH.
    + destruct Hne. apply char_code_inj. lia.
Qed.

(** X6. When the input path differs from the output path and cannot be
    opened, in whatever mode and with whatever hint, the run writes
    [Failed to open input file <path>] on the diagnostic stream and returns
    1; nothing else happens. *)
Theorem input_open_failure (fs : samtools) (argv : list string)
    (in_path out_path : string) :
  argv !! 1%nat = Some in_path -> argv !! 2%nat = Some out_path ->
  c_string in_path = true -> c_string out_path = true ->
  in_path <> out_path ->
  (forall (mode : string) (aux : option string),
      samopen_read fs in_path mode aux = None) ->
  run fs argv = ([Stderr (line ("Failed to open input file " ++ in_path))], Exited 1).
Proof.
  intros E1 E2 C1 C2 Hne Hclosed.
  destruct argv as [|a0 [|p1 [|p2 rest]]]; try discriminate.
  injection E1 as ->. injection E2 as ->.
  unfold run, main. apply bind_exited. rewrite open_input_eq.
  destruct (Z.eqb_spec (strcmp in_path out_path) 0) as [E|_].
  - destruct Hne. now apply strcmp_zero_eq.
  - cbv zeta. now rewrite Hclosed.
Qed.

(** The theorem at a file [example_fs] does not have. *)
Lemma input_open_failure_witness :
  run example_fs ["sam_bam_verify"; "missing.bam"; "out.bam"]%string =
    ([Stderr (line "Failed to open input file missing.bam")], Exited 1).
Proof.
  apply (input_open_failure example_fs
           ["sam_bam_verify"; "missing.bam"; "out.bam"]%string
           "missing.bam" "out.bam"); try reflexivity.
  discriminate.
Defined.

Lemma inputs_opened_app (a b : trace) :
  inputs_opened (a ++ b) = inputs_opened a ++ inputs_opened b.
Proof. apply omap_app. Qed.

Lemma inputs_opened_diagnostics (evs : trace) : diagnostics evs -> inputs_opened evs = [].
Proof. induction 1 as [|e evs [s ->] _ IH]; [reflexivity | exact IH]. Qed.

Lemma inputs_opened_copy (records : list bam1_t) :
  inputs_opened (flat_map copy_events records) = [].
Proof. induction records as [|b rest IH]; [reflexivity | exact IH]. Qed.

Lemma inputs_opened_In (tr : trace) (path mode : string) (aux : option string) :
  In (OpenedInput path mode aux) tr -> In (path, mode, aux) (inputs_opened tr).
Proof.
  induction tr as [|e tr IH]; [done|]. intros [->|Hin]; [now left|].
  specialize (IH Hin). destruct e; simpl; auto.
Qed.

(** The trace of a run, read off the equation [H] that gives the run. *)
Ltac trace_of H :=
  apply (f_equal fst) in H; cbn [fst] in H; subst.

(** A run opens at most one input, by the call [open_input] makes. *)
Lemma run_inputs_opened (fs : samtools) (a0 in_path out_path : string)
    (rest : list string) (tr : trace) (o : outcome unit) :
  run fs (a0 :: in_path :: out_path :: rest) = (tr, o) ->
  inputs_opened tr = [] \/
  inputs_opened tr =
    [(in_path, (select_in_mode in_path (reference_hint fs rest)).1,
      (select_in_mode in_path (reference_hint fs rest)).2)].
Proof.
  set (argv := a0 :: in_path :: out_path :: rest).
  pose proof (open_input_eq fs a0 in_path out_path rest []) as Hopen.
  cbv zeta in Hopen. fold argv in Hopen. rewrite !app_nil_l in Hopen.
  set (mode_aux := select_in_mode in_path (reference_hint fs rest)) in *.
  intros Hrun. destruct (strcmp in_path out_path =? 0).
  { left. unfold run, main in Hrun. rewrite (bind_exited _ _ _ _ _ Hopen) in Hrun.
    now injection Hrun as <- _. }
  destruct (samopen_read fs in_path mode_aux.1 mode_aux.2) as [infp|].
  - right. rewrite (run_after_open fs argv _ infp _ out_path Hopen eq_refl) in Hrun.
    destruct (prepare_header _ (header infp) _) as [tr1 o1] eqn:Hprep.
    destruct (quiet_prepare_header _ _ _ _ _ Hprep) as [(evs & -> & D) _].
    destruct o1 as [hdr|status|].
    + destruct (samopen_write fs out_path hdr); trace_of Hrun.
      * unfold success_trace.
        rewrite !inputs_opened_app, (inputs_opened_diagnostics _ D), inputs_opened_copy.
        reflexivity.
      * rewrite !inputs_opened_app, (inputs_opened_diagnostics _ D). reflexivity.
    + trace_of Hrun.
      rewrite !inputs_opened_app, (inputs_opened_diagnostics _ D). reflexivity.
    + trace_of Hrun.
      rewrite !inputs_opened_app, (inputs_opened_diagnostics _ D). reflexivity.
  - left. unfold run, main in Hrun. rewrite (bind_exited _ _ _ _ _ Hopen) in Hrun.
    now injection Hrun as <- _.
Qed.

(** X7. What [samopen] gets for the input: the first path, mode [r] or [rb],
    and a reference hint only in mode [r], only when there is a fourth
    argument, that argument is not [-v], and [samfaipath] finds its index;
    in mode [rb], and with [-v] as the fourth argument, there is no hint. *)
Theorem hint_only_for_text_input (fs : samtools) (argv : list string)
    (tr : trace) (o : outcome unit) (path mode : string) (aux : option string) :
  run fs argv = (tr, o) ->
  In (OpenedInput path mode aux) tr ->
  argv !! 1%nat = Some path /\
  (mode = "r"%string \/ mode = "rb"%string /\ aux = None) /\
  (mode, aux) = select_in_mode path (reference_hint fs (drop 3 argv)) /\
  (forall a : string, aux = Some a ->
     exists hint : string,
       argv !! 3%nat = Some hint /\ strcmp hint "-v" <> 0 /\
       samfaipath fs hint = Some a) /\
  (argv !! 3%nat = None \/ argv !! 3%nat = Some "-v"%string -> aux = None).
Proof.
  intros Hrun Hin. apply inputs_opened_In in Hin.
  assert (exists a0 in_path out_path rest, argv = a0 :: in_path :: out_path :: rest)
    as (a0 & in_path & out_path & rest & ->).
  { destruct argv as [|a0 [|p1 [|p2 rest]]]; [| | |by eexists _, _, _, _];
      exfalso; vm_compute in Hrun; injection Hrun as <- _; destruct Hin. }
  destruct (run_inputs_opened fs a0 in_path out_path rest tr o Hrun) as [E|E];
    rewrite E in Hin; [destruct Hin|].
  destruct Hin as [Hin|[]]. injection Hin as <- <- <-.
  change (drop 3 (a0 :: in_path :: out_path :: rest)) with rest.
  set (hint := reference_hint fs rest).
  split; [reflexivity|].
  split; [|split; [now destruct (select_in_mode in_path hint)|split]].
  - unfold select_in_mode, strcat. destruct (strcasestr in_path ".bam") as [p|]; [|now left].
    destruct (strcasecmp (ptr_add in_path p) ".bam" =? 0);
      [right; split; reflexivity | now left].
  - intros a Haux. assert (hint = Some a) as Hhint.
    { revert Haux. unfold select_in_mode.
      destruct (strcasestr in_path ".bam") as [p|]; [|done].
      destruct (strcasecmp (ptr_add in_path p) ".bam" =? 0); [discriminate|done]. }
    subst hint. unfold reference_hint in Hhint. destruct rest as [|h rest]; [discriminate|].
    exists h. split; [reflexivity|].
    destruct (Z.eqb_spec (strcmp h "-v") 0); [discriminate|]. split; done.
  - intros Hnone. assert (hint = None) as Hhint.
    { subst hint. unfold reference_hint. destruct rest as [|h rest]; [reflexivity|].
      destruct Hnone as [Hnone|Hnone]; [discriminate|]. injection Hnone as ->.
      reflexivity. }
    rewrite Hhint. unfold select_in_mode.
    destruct (strcasestr in_path ".bam") as [p|]; [|reflexivity].
    now destruct (strcasecmp (ptr_add in_path p) ".bam" =? 0).
Qed.

(** The theorem at a run with the hint [ref.fa]. *)
Lemma hint_only_for_text_input_witness :
  exists (tr : trace) (hint : string),
    run hint_fs ["sam_bam_verify"; "reads.sam"; "out.bam"; "ref.fa"]%string
      = (tr, Exited 0) /\
    In (OpenedInput "reads.sam" "r" (Some "ref.fa.fai"%string)) tr /\
    ["sam_bam_verify"; "reads.sam"; "out.bam"; "ref.fa"]%string !! 3%nat = Some hint /\
    samfaipath hint_fs hint = Some "ref.fa.fai"%string.
Proof.
  destruct (run hint_fs ["sam_bam_verify"; "reads.sam"; "out.bam"; "ref.fa"]%string)
    as [tr o] eqn:Hrun.
  pose proof Hrun as Hrun'. vm_compute in Hrun'. injection Hrun' as Htr Ho.
  assert (In (OpenedInput "reads.sam" "r" (Some "ref.fa.fai"%string)) tr) as Hin
    by (rewrite <- Htr; now left).
  destruct (hint_only_for_text_input hint_fs _ tr o _ _ _ Hrun Hin)
    as (_ & _ & _ & Hhint & _).
  destruct (Hhint _ eq_refl) as (hint & E3 & _ & Efai).
  exists tr, hint. rewrite <- Ho. repeat split; assumption.
Defined.

(** ** Failing to open the output *)

(** X8. When the output path cannot be opened, whatever the header, no run
    returns 0, opens the output, reads or writes a record, or prints on
    standard output; and a run whose input opens and whose header phase
    runs to its end writes, after the diagnostics of that phase,
    [Failed to open output file <path>] and returns 1. *)
Theorem output_open_failure (fs : samtools) (argv : list string) (tr : trace)
    (o : outcome unit) (out_path : string) :
  argv !! 2%nat = Some out_path ->
  (forall hdr : bam_header_t, samopen_write fs out_path hdr = false) ->
  run fs argv = (tr, o) ->
  o <> Exited 0 /\
  (forall (path : string) (hdr : bam_header_t), ~ In (OpenedOutput path hdr) tr) /\
  records_read tr = [] /\ records_written tr = [] /\ stdout_of tr = [] /\
  (forall (infp : samfile_t) (debug_level : Z) (tr0 tr1 : trace) (hdr : bam_header_t),
      open_input fs argv [] = (tr0, Done (infp, debug_level)) ->
      prepare_header debug_level (header infp) tr0 = (tr1, Done hdr) ->
      tr = tr1 ++ [Stderr (line ("Failed to open output file " ++ out_path))] /\
      o = Exited 1).
Proof.
  intros Eout Hclosed Hrun.
  assert (forall evs path hdr, diagnostics evs -> ~ In (OpenedOutput path hdr) evs)
    as Hdiag.
  { intros evs path hdr D Hev. unfold diagnostics in D. rewrite Forall_forall in D.
    apply list_elem_of_In, D in Hev as [s Hs]. discriminate. }
  split; [|split; [|split; [|split; [|split]]]].
  - apply run_has_shape in Hrun.
    destruct Hrun as [| | | ? ? out ? ? ? hdr ? _ E2 _ _ _ Ew]; try discriminate.
    rewrite Eout in E2. injection E2 as <-. rewrite Hclosed in Ew. discriminate.
  - apply run_has_shape in Hrun. intros path hdr0 Hin.
    destruct Hrun as [tr D | ? ? ? ? ? evs _ _ _ D | ? ? ? ? evs _ _ D
                     | ? ? out ? ? ? hdr ? _ E2 _ _ _ Ew].
    + exact (Hdiag _ _ _ D Hin).
    + destruct Hin as [Hin|Hin]; [discriminate | exact (Hdiag _ _ _ D Hin)].
    + destruct Hin as [Hin|Hin]; [discriminate | exact (Hdiag _ _ _ D Hin)].
    + rewrite Eout in E2. injection E2 as <-. rewrite Hclosed in Ew. discriminate.
  - apply run_has_shape in Hrun.
    destruct Hrun as [tr D | ? ? ? ? ? evs _ _ _ D | ? ? ? ? evs _ _ D
                     | ? ? out ? ? ? hdr ? _ E2 _ _ _ Ew].
    + now apply records_read_diagnostics.
    + simpl. now apply records_read_diagnostics.
    + simpl. now apply records_read_diagnostics.
    + rewrite Eout in E2. injection E2 as <-. rewrite Hclosed in Ew. discriminate.
  - apply run_has_shape in Hrun.
    destruct Hrun as [tr D | ? ? ? ? ? evs _ _ _ D | ? ? ? ? evs _ _ D
                     | ? ? out ? ? ? hdr ? _ E2 _ _ _ Ew].
    + now apply records_written_diagnostics.
    + simpl. now apply records_written_diagnostics.
    + simpl. now apply records_written_diagnostics.
    + rewrite Eout in E2. injection E2 as <-. rewrite Hclosed in Ew. discriminate.
  - apply run_has_shape in Hrun.
    destruct Hrun as [tr D | ? ? ? ? ? evs _ _ _ D | ? ? ? ? evs _ _ D
                     | ? ? out ? ? ? hdr ? _ E2 _ _ _ Ew].
    + now apply stdout_of_diagnostics.
    + simpl. now apply stdout_of_diagnostics.
    + simpl. now apply stdout_of_diagnostics.
    + rewrite Eout in E2. injection E2 as <-. rewrite Hclosed in Ew. discriminate.
  - intros infp dbg tr0 tr1 hdr Hopen Hprep.
    rewrite (run_after_open fs argv tr0 infp dbg out_path Hopen Eout), Hprep,
      Hclosed in Hrun.
    injection Hrun as <- <-. split; reflexivity.
Qed.

(** The theorem where [reads.sam] opens and the output cannot be created. *)
Lemma output_open_failure_witness :
  exists tr : trace,
    run example_fs ["sam_bam_verify"; "reads.sam"; "/nonexistent/out.bam"]%string
      = (tr, Exited 1) /\
    last tr = Some (Stderr (line "Failed to open output file /nonexistent/out.bam")) /\
    records_read tr = [] /\ stdout_of tr = [].
Proof.
  set (argv := ["sam_bam_verify"; "reads.sam"; "/nonexistent/out.bam"]%string).
  destruct (run example_fs argv) as [tr o] eqn:Hrun.
  destruct (output_open_failure example_fs argv tr o "/nonexistent/out.bam"
              eq_refl (fun _ => eq_refl) Hrun)
    as (_ & _ & Hread & _ & Hout & Hlast).
  destruct (open_input example_fs argv []) as [tr0 o0] eqn:Hopen.
  pose proof Hopen as Hopen'. vm_compute in Hopen'. injection Hopen' as _ Ho0.
  subst o0.
  destruct (prepare_header 0 example_header tr0) as [tr1 o1] eqn:Hprep.
  pose proof Hprep as Hprep'. vm_compute in Hopen. injection Hopen as <-.
  vm_compute in Hprep'. injection Hprep' as _ Ho1. subst o1.
  destruct (Hlast _ 0 _ tr1 _ eq_refl Hprep) as [-> ->].
  eexists. split; [reflexivity|]. split; [apply last_snoc|].
  split; [exact Hread | exact Hout].
Defined.

(** ** The header handed to the output *)

(** The header phase on a header a file can hold: what comes out. *)
Lemma prepare_header_result (debug_level : Z) (h h' : bam_header_t) (tr tr' : trace) :
  wf_header h = true ->
  prepare_header debug_level h tr = (tr', Done h') ->
  exists (h1 : bam_header_t) (tr1 : trace) (t : string),
    normalize_table debug_level h tr = (tr1, Done h1) /\
    h' = set_l_text (uint32 (Z.of_nat (strlen (rewrite_loop t))))
           (set_text (Some (rewrite_loop t)) h1).
Proof.
  intros Hwf Hrun. destruct (wf_header_lengths h Hwf) as [Hn Hl].
  destruct (normalize_loop debug_level (Z.to_nat (n_targets h)) 0 h tr)
    as (h1 & tr1 & Hnorm & _); [lia..|].
  fold (normalize_table debug_level h) in Hnorm.
  destruct (normalize_table_wf _ _ _ _ _ Hwf Hnorm) as [Hwf1 _].
  pose proof (synthesize_text_run h1 tr1 Hwf1) as Hsynth.
  exists h1, tr1.
  destruct (text_missing h1 && (0 <? n_targets h1)).
  - destruct (prepare_header_run debug_level h h1 _ tr tr1 _
                (join (zip_with sq_line (target_name h1) (target_len h1)))
                Hnorm Hsynth eq_refl) as [tr2 Hrun2].
    rewrite Hrun2 in Hrun. injection Hrun as _ <-. eexists. split; [exact Hnorm|].
    reflexivity.
  - destruct (text h1) as [t|] eqn:Et.
    + destruct (prepare_header_run debug_level h h1 h1 tr tr1 tr1 t Hnorm Hsynth Et)
        as [tr2 Hrun2].
      rewrite Hrun2 in Hrun. injection Hrun as _ <-. exists t. split; [exact Hnorm|].
      destruct h1; reflexivity.
    + rewrite (prepare_header_crash debug_level h h1 h1 tr tr1 tr1 Hnorm Hsynth Et) in Hrun.
      discriminate.
Qed.

(** X9. The header a run hands to the output container, when the header of
    the input container the run opened is one a file can hold: it has as
    many references as the input's; each reference keeps its name and length, or has lost a
    leading ["chr"] and has as length the character count of what is left,
    which is never empty; its text holds no ["SN:chr"], and its [l_text]
    is the character count of the text, as a 32-bit value. *)
Theorem output_header_invariants (fs : samtools) (argv : list string)
    (tr : trace) (o : outcome unit) (out_path : string) (hdr : bam_header_t) :
  run fs argv = (tr, o) ->
  In (OpenedOutput out_path hdr) tr ->
  exists (in_path in_mode : string) (aux : option string) (infp : samfile_t),
    argv !! 1%nat = Some in_path /\ argv !! 2%nat = Some out_path /\
    In (OpenedInput in_path in_mode aux) tr /\
    samopen_read fs in_path in_mode aux = Some infp /\
    samopen_write fs out_path hdr = true /\
    (wf_header (header infp) = true ->
     n_targets hdr = n_targets (header infp) /\
     length (target_name hdr) = length (target_name (header infp)) /\
     length (target_len hdr) = length (target_len (header infp)) /\
     (forall (i : nat) (name : string) (len : Z),
         target_name (header infp) !! i = Some name ->
         target_len (header infp) !! i = Some len ->
         exists (name' : string) (len' : Z),
           target_name hdr !! i = Some name' /\ target_len hdr !! i = Some len' /\
           (name' = name /\ len' = len \/
            name = ("chr" ++ name')%string /\ name' <> EmptyString /\
            len' = Z.of_nat (String.length name'))) /\
     exists t : string,
       text hdr = Some t /\ ~ occurs "SN:chr" t /\
       l_text hdr = uint32 (Z.of_nat (String.length t))).
Proof.
  intros Hrun Hin. apply run_has_shape in Hrun.
  assert (forall evs, diagnostics evs -> In (OpenedOutput out_path hdr) evs -> False)
    as Hdiag.
  { intros evs D Hev. unfold diagnostics in D. rewrite Forall_forall in D.
    apply list_elem_of_In, D in Hev as [s Hs]. discriminate. }
  destruct Hrun as [tr D | ? ? ? ? ? evs _ _ _ D | ? ? ? ? evs _ _ D
                   | in_path in_mode out aux infp dbg hdr0 evs E1 E2 Eopen Hprep D Ew].
  - destruct (Hdiag tr D Hin).
  - destruct Hin as [Hin|Hin]; [discriminate | destruct (Hdiag evs D Hin)].
  - destruct Hin as [Hin|Hin]; [discriminate | destruct (Hdiag evs D Hin)].
  - assert (OpenedOutput out_path hdr = OpenedOutput out hdr0) as Heq.
    { unfold success_trace in Hin. apply in_app_or in Hin as [Hin|Hin].
      - destruct Hin as [Hin|Hin]; [discriminate | destruct (Hdiag evs D Hin)].
      - apply in_app_or in Hin as [[Hin|[]]|Hin]; [now symmetry|].
        apply in_app_or in Hin as [Hin|Hin].
        + apply in_flat_map in Hin as (b & _ & [Hb|[Hb|[]]]); discriminate.
        + destruct Hin as [Hin|[Hin|[Hin|[]]]]; discriminate. }
    injection Heq as -> ->.
    exists in_path, in_mode, aux, infp.
    split; [exact E1|]. split; [exact E2|]. split; [now left|].
    split; [exact Eopen|]. split; [exact Ew|].
    intros Hwf.
    destruct (prepare_header_result _ _ _ _ _ Hwf Hprep) as (h1 & tr1 & t & Hnorm & ->).
    destruct (normalize_table_wf _ _ _ _ _ Hwf Hnorm) as [_ [A1 A2 A3 A4 A5 Aout Ain]].
    cbn [n_targets target_name target_len text l_text set_text set_l_text].
    split; [exact A1|]. split; [exact A4|]. split; [exact A5|]. split.
    + intros i name len Hname Hlen.
      destruct (wf_header_lengths _ Hwf) as [Hn _].
      pose proof (lookup_lt_Some _ _ _ Hname) as Hi.
      destruct (Ain i name len) as [E1' E2']; [lia|done..|].
      exists (stripped_name name len), (stripped_len name len).
      split; [exact E1'|]. split; [exact E2'|].
      unfold stripped_name, stripped_len, strips.
      destruct (String.prefix "chr" name) eqn:Epre; cbn [andb]; [|now left].
      destruct (Nat.ltb_spec 3 (String.length name)) as [Hlong|]; cbn [andb]; [|now left].
      destruct (3 <? len); [|now left]. right.
      split; [exact (prefix_split _ _ Epre)|]. split.
      * intros Hempty. apply (f_equal String.length) in Hempty.
        rewrite length_ptr_add in Hempty. simpl in Hempty. lia.
      * apply uint32_small. pose proof (wf_header_name _ i name Hwf Hname).
        rewrite length_ptr_add. lia.
    + exists (rewrite_loop t). split; [reflexivity|]. split; [|reflexivity].
      apply strstr_none, rewrite_loop_clean.
Qed.

(** The theorem at the run on [reads.sam]: the output gets the names [1] and
    [X], which have lost their ["chr"]. *)
Lemma output_header_invariants_witness :
  exists (tr : trace) (hdr : bam_header_t),
    run example_fs example_argv = (tr, Exited 0) /\
    In (OpenedOutput "out.bam" hdr) tr /\
    n_targets hdr = 2 /\
    exists t : string, text hdr = Some t /\ ~ occurs "SN:chr" t.
Proof.
  destruct (run example_fs example_argv) as [tr o] eqn:Hrun.
  pose proof Hrun as Hrun'. vm_compute in Hrun'. injection Hrun' as Htr Ho.
  subst o. eexists tr, _. split; [reflexivity|].
  assert (In (OpenedOutput "out.bam"
                {| n_targets := 2;
                   target_name := ["1"; "X"]%string;
                   target_len := [1; 1];
                   l_text := 44;
                   text := Some (sq_line "1" 248956422 ++ sq_line "X" 156040895)%string |})
             tr) as Hin by (rewrite <- Htr; right; now left).
  split; [exact Hin|].
  destruct (output_header_invariants example_fs example_argv tr _ _ _ Hrun Hin)
    as (p & m & a & infp & E1 & _ & _ & Eopen & _ & Hinv).
  injection E1 as <-. cbn in Eopen. injection Eopen as <-.
  destruct (Hinv eq_refl) as (Hn & _ & _ & _ & t & Et & Hclean & _).
  split; [exact Hn|]. now exists t.
Defined.

(** ** Where the rewriter is defined *)

(** X10. The loop of lines 79-81 keeps within defined behaviour only on a
    text without ["SN:chr"], which it leaves as it is, and on a text whose
    first ["SN:chr"] has fewer than three characters after it: then one
    round takes that ["chr"] out, no ["SN:chr"] is left, and the loop
    ends.  A second round is reached only after a copy between overlapping
    ranges. *)
Theorem rewrite_defined_within_one_round (t : string) :
  rewrite_overlaps t = false ->
  (~ occurs "SN:chr" t /\ rewrite_loop t = t) \/
  (exists a b : string,
      t = (a ++ "SN:chr" ++ b)%string /\
      ~ occurs "SN:chr" a /\
      (String.length b < 3)%nat /\
      rewrite_loop t = (a ++ "SN:" ++ b)%string /\
      ~ occurs "SN:chr" (a ++ "SN:" ++ b)%string).
Proof.
  rewrite rewrite_overlaps_first_round.
  destruct (strstr t "SN:chr") as [p|] eqn:Hp.
  - intros Hshort. apply Nat.leb_gt in Hshort. right.
    pose proof (strstr_first _ _ _ Hp) as Hfirst.
    pose proof (rewrite_loop_found t p Hp) as Hround.
    destruct (strstr_split _ _ _ Hp) as (a & b & -> & <-).
    assert (String.length b < 3)%nat as Hb
      by (rewrite !length_append in Hshort; simpl in Hshort; lia).
    pose proof (removal_near_end_clean a b Hb Hfirst) as Hclean.
    exists a, b. split; [reflexivity|]. split; [|split; [exact Hb|split; [|exact Hclean]]].
    + intros (a0 & b0 & ->).
      specialize (Hfirst a0 (b0 ++ "SN:chr" ++ b)%string).
      rewrite !append_assoc, !length_append in Hfirst. simpl in Hfirst.
      specialize (Hfirst eq_refl). lia.
    + rewrite Hround, strcpy_down_hit. apply rewrite_loop_done, strstr_none, Hclean.
  - intros _. left. split; [now apply strstr_none | now apply rewrite_loop_done].
Qed.

(** The theorem at a text that ends with [SN:chr] and a newline: one round,
    after which the [SN] field is empty. *)
Lemma rewrite_defined_within_one_round_witness :
  rewrite_overlaps example_sn_last = false /\
  exists a b : string,
    example_sn_last = (a ++ "SN:chr" ++ b)%string /\
    (String.length b < 3)%nat /\
    rewrite_loop example_sn_last = (a ++ "SN:" ++ b)%string.
Proof.
  assert (rewrite_overlaps example_sn_last = false) as Hdefined
    by (vm_compute; reflexivity).
  split; [exact Hdefined|].
  destruct (rewrite_defined_within_one_round example_sn_last Hdefined)
    as [[Hnone _] | (a & b & Et & _ & Hb & Hloop & _)].
  - exfalso. apply Hnone.
    now exists ("@SQ" ++ String TAB ("LN:100" ++ String TAB EmptyString))%string,
               (String NL EmptyString).
  - now exists a, b.
Defined.

(** ** The discipline of the containers *)

Lemma protocol_run_app (st : containers) (a b : trace) :
  protocol_run st (a ++ b) =
    match protocol_run st a with
    | Some st' => protocol_run st' b
    | None => None
    end.
Proof.
  revert st; induction a as [|e a IH]; intros st; [reflexivity|].
  simpl. destruct (protocol_step st e); [apply IH | reflexivity].
Qed.

Lemma protocol_run_diagnostics (st : containers) (evs : trace) :
  diagnostics evs -> protocol_run st evs = Some st.
Proof. induction 1 as [|e evs [s ->] _ IH]; [reflexivity | exact IH]. Qed.

Lemma protocol_run_copy (st : containers) (records : list bam1_t) :
  input_state st = Open -> output_state st = Open ->
  protocol_run st (flat_map copy_events records) = Some st.
Proof.
  destruct st as [i o]; simpl; intros -> ->.
  induction records as [|b rest IH]; [reflexivity | exact IH].
Qed.

(** X12. Every run keeps the discipline of its two containers: each is
    opened at most once, the output only after the input; records are read
    only from the open input and written only to the open output; nothing
    is closed that is not open, and nothing is touched after its closing.
    A run that returns 0 ends with both containers closed; any other run
    has at most opened the input. *)
Theorem run_keeps_protocol (fs : samtools) (argv : list string) (tr : trace)
    (o : outcome unit) :
  run fs argv = (tr, o) ->
  exists st : containers,
    protocol_run nothing_open tr = Some st /\
    (o = Exited 0 -> st = {| input_state := Shut; output_state := Shut |}) /\
    (o <> Exited 0 -> output_state st = Unopened /\ input_state st <> Shut).
Proof.
  intros Hrun. apply run_has_shape in Hrun.
  destruct Hrun as [tr D | ? ? ? ? ? evs _ _ _ D | ? ? ? ? evs _ _ D
                   | in_path in_mode out_path aux infp dbg hdr evs _ _ _ _ D _].
  - exists nothing_open. split; [now apply protocol_run_diagnostics|].
    split; [discriminate|]. intros _. split; [reflexivity | discriminate].
  - exists {| input_state := Open; output_state := Unopened |}.
    split; [simpl; now apply protocol_run_diagnostics|].
    split; [discriminate|]. intros _. split; [reflexivity | discriminate].
  - exists {| input_state := Open; output_state := Unopened |}.
    split; [simpl; now apply protocol_run_diagnostics|].
    split; [discriminate|]. intros _. split; [reflexivity | discriminate].
  - exists {| input_state := Shut; output_state := Shut |}.
    split; [|split; [reflexivity | congruence]].
    unfold success_trace.
    cbn [app protocol_run protocol_step nothing_open is_unopened input_state
         output_state].
    rewrite protocol_run_app, (protocol_run_diagnostics _ evs D).
    change (protocol_run ?s (OpenedOutput ?p ?h :: ?l)) with
      (protocol_run {| input_state := Open; output_state := Open |} l).
    rewrite protocol_run_app, protocol_run_copy by reflexivity. reflexivity.
Qed.

(** The theorem at the run on [reads.sam]. *)
Lemma run_keeps_protocol_witness :
  exists tr : trace,
    run example_fs example_argv = (tr, Exited 0) /\
    protocol_run nothing_open tr = Some {| input_state := Shut; output_state := Shut |}.
Proof.
  destruct (run example_fs example_argv) as [tr o] eqn:Hrun.
  pose proof Hrun as Hrun'. vm_compute in Hrun'. injection Hrun' as _ Ho. subst o.
  exists tr. split; [reflexivity|].
  destruct (run_keeps_protocol example_fs example_argv tr _ Hrun) as (st & Hst & Hok & _).
  now rewrite Hst, (Hok eq_refl).
Defined.
